(** * locaLLM_bot: a Telegram relay in front of a local Ollama model

    A shallow embedding of the message-intake pipeline of the bot
    (utils.go, telegram bot and main.go) and the proofs of its
    properties: the response segmenter [SplitMessage], the access guard
    [isUserAllowed], the sliding-window rate limiter [checkRateLimit],
    the dispatcher [HandleMessage] and the long-poll intake loop of
    [main].

    Conventions.
    - A Go [string] is its sequence of bytes, a [list ascii]; [len] is the
      length of that list.
    - Go [int] and [int64] values are [Z]; the only arithmetic on a value
      read from the network, [LastUpdate+1], has its wrap-around written
      out ([wrap64]).
    - [time.Time] and [time.Duration] are [Z], in one unit of time.
    - Maps are stdpp's [gmap]; a missing key reads as Go's zero value.
    - Effects (messages sent, log lines, sleeps) are recorded in a trace;
      what the outside world answers (the clock, the model backend, the
      Telegram API) is read from an environment [Env]. *)

From Stdlib Require Import Strings.String Strings.Ascii ZArith Lia.
From Stdlib Require Import Numbers.DecimalString.
From stdpp Require Import gmap list strings.

Local Open Scope Z_scope.

(** ** Go values *)

Abbreviation gostring := (list ascii).

(** [len(s)] *)
Definition len {A} (s : list A) : Z := Z.of_nat (length s).

(** What running a piece of Go code can do: return a value, panic (index or
    slice bound out of range, nil dereference), or still be running when the
    fuel given to a loop is used up. *)
Inductive run (A : Type) : Type :=
| Returns (a : A)
| Panics
| OutOfFuel.
Arguments Returns {A} a.
Arguments Panics {A}.
Arguments OutOfFuel {A}.

#[global] Instance run_ret : MRet run := @Returns.
#[global] Instance run_bind : MBind run := fun A B k r =>
  match r with
  | Returns a => k a
  | Panics => Panics
  | OutOfFuel => OutOfFuel
  end.

(** [s[i]] for a Go int [i]: panics out of range. *)
Definition index (s : gostring) (i : Z) : run ascii :=
  if bool_decide (0 <= i) then
    match s !! Z.to_nat i with
    | Some b => Returns b
    | None => Panics
    end
  else Panics.

(** [s[:n]] and [s[n:]]: panic unless [0 <= n <= len(s)]. *)
Definition slice_to (s : gostring) (n : Z) : run gostring :=
  if bool_decide (0 <= n <= len s) then Returns (take (Z.to_nat n) s) else Panics.

Definition slice_from (s : gostring) (n : Z) : run gostring :=
  if bool_decide (0 <= n <= len s) then Returns (drop (Z.to_nat n) s) else Panics.

(** A string literal of the Go source, as its bytes. *)
Definition str (s : string) : gostring := list_ascii_of_string s.

Definition newline : ascii := "010"%char.
Definition space : ascii := " "%char.

(** ** The segmenter (utils.go) *)

Module Segmenter.

(** The backward search of [SplitMessage],

      for i := maxLen; i > 0 && i > lo; i-- {
          if current[i-1] == c { splitPos = i; break }
      }

    started at [i]; the result is the [i] at which it breaks, if it does.
    [i] is positive whenever the body runs, so the counter is a [nat] and
    the test [i > 0] is the match. *)
Fixpoint scanBack (c : ascii) (current : gostring) (lo : Z) (i : nat)
  : run (option Z) :=
  match i with
  | O => Returns None
  | S j =>
      if bool_decide (Z.of_nat i > lo) then
        b ← index current (Z.of_nat i - 1);
        if Ascii.eqb b c then Returns (Some (Z.of_nat i))
        else scanBack c current lo j
      else Returns None
  end.

(** The choice of [splitPos] in one iteration of the splitting loop. *)
Definition findSplit (current : gostring) (maxLen : Z) : run Z :=
  let splitPos := maxLen in
  nl ← scanBack newline current (maxLen - 100) (Z.to_nat maxLen);
  let splitPos := match nl with Some i => i | None => splitPos end in
  sp ← (if bool_decide (splitPos = maxLen)
         then scanBack space current (maxLen - 50) (Z.to_nat maxLen)
         else Returns None);
  let splitPos := match sp with Some i => i | None => splitPos end in
  let splitPos :=
    if bool_decide (splitPos = maxLen) && bool_decide (len current > maxLen)
    then maxLen else splitPos in
  Returns splitPos.

(** for len(current) > 0 && (current[0] == ' ' || current[0] == '\n') {
        current = current[1:]
    } *)
Fixpoint skipLeading (current : gostring) : gostring :=
  match current with
  | b :: rest =>
      if Ascii.eqb b space || Ascii.eqb b newline then skipLeading rest
      else current
  | [] => []
  end.

(** The loop [for len(current) > maxLen { ... }] and the code after it.
    One unit of fuel is used per iteration. *)
Fixpoint splitLoop (fuel : nat) (maxLen : Z) (parts : list gostring)
    (current : gostring) : run (list gostring) :=
  if bool_decide (len current > maxLen) then
    match fuel with
    | O => OutOfFuel
    | S fuel' =>
        splitPos ← findSplit current maxLen;
        part ← slice_to current splitPos;
        rest ← slice_from current splitPos;
        splitLoop fuel' maxLen (parts ++ [part]) (skipLeading rest)
    end
  else
    Returns (if bool_decide (len current > 0) then parts ++ [current]
             else parts).

(** [SplitMessage] of utils.go, with the fuel of its loop. *)
Definition SplitMessage (fuel : nat) (text : gostring) (maxLen : Z)
  : run (list gostring) :=
  if bool_decide (len text <= maxLen) then Returns [text]
  else
    let maxLen := if bool_decide (maxLen <= 0) then 4000 else maxLen in
    splitLoop fuel maxLen [] text.

(** The first version of [SplitMessage], before the guard on [maxLen] and
    the skipping of leading blanks were added. *)
Fixpoint splitLoop_v1 (fuel : nat) (maxLen : Z) (parts : list gostring)
    (current : gostring) : run (list gostring) :=
  if bool_decide (len current > maxLen) then
    match fuel with
    | O => OutOfFuel
    | S fuel' =>
        let splitPos := maxLen in
        nl ← scanBack newline current (maxLen - 100) (Z.to_nat maxLen);
        let splitPos := match nl with Some i => i | None => splitPos end in
        sp ← (if bool_decide (splitPos = maxLen)
               then scanBack space current (maxLen - 50) (Z.to_nat maxLen)
               else Returns None);
        let splitPos := match sp with Some i => i | None => splitPos end in
        part ← slice_to current splitPos;
        rest ← slice_from current splitPos;
        splitLoop_v1 fuel' maxLen (parts ++ [part]) rest
    end
  else
    Returns (if bool_decide (len current > 0) then parts ++ [current]
             else parts).

Definition SplitMessage_v1 (fuel : nat) (text : gostring) (maxLen : Z)
  : run (list gostring) :=
  if bool_decide (len text <= maxLen) then Returns [text]
  else splitLoop_v1 fuel maxLen [] text.

End Segmenter.


(** ** Telegram structures and the bot (telegram bot file) *)

Record User := {
  User_ID : Z;
  User_FirstName : gostring;
  User_Username : gostring
}.

Record Chat := {
  Chat_ID : Z;
  Chat_Type : gostring;
  Chat_FirstName : gostring;
  Chat_Username : gostring
}.

(** [From] and [Chat] are pointers: [None] is [nil]. *)
Record Message := {
  Message_MessageID : Z;
  Message_From : option User;
  Message_Chat : option Chat;
  Message_Text : gostring;
  Message_Date : Z
}.

Record Update := {
  Update_UpdateID : Z;
  Update_Message : option Message
}.

Record OllamaClient := {
  Ollama_URL : gostring;
  Ollama_Model : gostring
}.

(** [TelegramBot]. The mutex [mu] has no counterpart: the intake loop is
    the only task that calls into the bot, one call at a time. *)
Record TelegramBot := {
  Token : gostring;
  APIURL : gostring;
  Ollama : OllamaClient;
  LastUpdate : Z;
  AllowedUsers : gmap Z bool;
  rateLimiter : gmap Z (list Z);
  maxRequests : Z;
  rateWindow : Z;
  maxPromptLen : Z
}.

Definition set_LastUpdate (v : Z) (bot : TelegramBot) : TelegramBot :=
  {| Token := Token bot; APIURL := APIURL bot; Ollama := Ollama bot;
     LastUpdate := v; AllowedUsers := AllowedUsers bot;
     rateLimiter := rateLimiter bot; maxRequests := maxRequests bot;
     rateWindow := rateWindow bot; maxPromptLen := maxPromptLen bot |}.

Definition set_rateLimiter (v : gmap Z (list Z)) (bot : TelegramBot)
  : TelegramBot :=
  {| Token := Token bot; APIURL := APIURL bot; Ollama := Ollama bot;
     LastUpdate := LastUpdate bot; AllowedUsers := AllowedUsers bot;
     rateLimiter := v; maxRequests := maxRequests bot;
     rateWindow := rateWindow bot; maxPromptLen := maxPromptLen bot |}.

(** Durations, in nanoseconds as in package [time]. *)
Definition Millisecond : Z := 1000000.
Definition Second : Z := 1000 * Millisecond.
Definition Minute : Z := 60 * Second.

(** [int64] wrap-around. *)
Definition wrap64 (z : Z) : Z := (z + 2 ^ 63) mod 2 ^ 64 - 2 ^ 63.

(** [%d] of an integer. *)
Definition itoa (z : Z) : gostring := str (NilZero.string_of_int (Z.to_int z)).

(** *** Effects *)

Inductive arg : Type :=
| AInt (n : Z)
| AStr (s : gostring).

(** What the bot does to the outside world, in order. *)
Inductive event : Type :=
| EvSend (chatID : Z) (text : gostring)      (* bot.SendMessage(chatID, text) *)
| EvPrompt (prompt : gostring)               (* bot.Ollama.SendPrompt(prompt) *)
| EvFetch (offset timeout : Z)               (* getUpdates?offset=..&timeout=.. *)
| EvLog (format : gostring) (args : list arg) (* log.Printf(format, args...) *)
| EvSleep (d : Z).                           (* time.Sleep(d) *)

(** The fields of [OllamaResponse] that [SendPrompt] reads. *)
Record OllamaResponse := {
  Response_Response : gostring;
  Response_Done : bool;
  Response_Error : gostring
}.

(** What one HTTP exchange with the Ollama server comes to, as [SendPrompt]
    sees it step by step; [e] is the text of the Go error of the step that
    failed. *)
Inductive exchange : Type :=
| MarshalFails (e : gostring)               (* json.Marshal *)
| NewRequestFails (e : gostring)            (* http.NewRequest *)
| DoFails (e : gostring)                    (* client.Do *)
| BadStatus (code : Z) (body : gostring)    (* resp.StatusCode != 200 *)
| ReadFails (e : gostring)                  (* io.ReadAll *)
| UnmarshalFails (e : gostring)             (* json.Unmarshal *)
| Decoded (r : OllamaResponse).

(** What the outside world answers. Each answer may depend on all that
    happened before it (the trace so far). The HTTP exchanges and the JSON
    encoding of [GetUpdates], [SendMessage] and [SendPrompt] belong to it:
    the model keeps the call made and the value the Go function returns. *)
Record Env := {
  env_now : list event -> Z;
  env_ollama : list event -> gostring -> exchange;
  env_send : list event -> Z -> gostring -> option gostring;
  env_fetch : list event -> Z -> list Update + gostring;
  env_cancelled : list event -> bool
}.

(** The state of a run: the bot and what it has done so far. *)
Record World := {
  w_bot : TelegramBot;
  w_trace : list event
}.

Definition emit (e : event) (w : World) : World :=
  {| w_bot := w_bot w; w_trace := w_trace w ++ [e] |}.

Definition with_bot (f : TelegramBot -> TelegramBot) (w : World) : World :=
  {| w_bot := f (w_bot w); w_trace := w_trace w |}.

Definition logPrintf (format : gostring) (args : list arg) (w : World) : World :=
  emit (EvLog format args) w.

Definition Sleep (d : Z) (w : World) : World := emit (EvSleep d) w.

(** *** Fixed texts *)

Definition msgRateLimited : gostring :=
  str "Слишком много запросов. Пожалуйста, подождите немного.".
Definition msgTooLong (maxPromptLen : Z) : gostring :=
  str "Сообщение слишком длинное. Максимальная длина: " ++ itoa maxPromptLen
  ++ str " символов.".
Definition msgProcessing : gostring := str "Обрабатываю запрос...".
Definition msgFailure : gostring :=
  str "Произошла ошибка при обработке запроса. Попробуйте позже.".
Definition continuationMarker : gostring :=
  [newline; newline] ++ str "[Продолжение следует...]".
Definition msgStart : gostring :=
  str "Привет! Я бот для работы с Ollama LLM." ++ [newline; newline]
  ++ str "Просто отправь мне сообщение, и я передам его модели для генерации ответа."
  ++ [newline; newline]
  ++ str "Используй /help для получения справки.".
Definition msgHelp : gostring :=
  str "Доступные команды:" ++ [newline; newline]
  ++ str "/start - приветственное сообщение" ++ [newline]
  ++ str "/help - эта справка" ++ [newline; newline]
  ++ str "Любое другое сообщение будет отправлено в Ollama для генерации ответа.".

(** *** Start-up *)

(** The environment variables read at start-up, after parsing.
    [ALLOWED_USER_IDS] is [None] when the variable is unset or empty, and
    otherwise holds, for each comma-separated field, what
    [strconv.ParseInt] makes of it ([None]: an error). The other three are
    [None] when unset or not parsed. *)
Record Environ := {
  ALLOWED_USER_IDS : option (list (option Z));
  RATE_LIMIT_MAX : option Z;
  RATE_LIMIT_WINDOW : option Z;
  MAX_PROMPT_LENGTH : option Z;
  OLLAMA_URL : gostring;
  OLLAMA_MODEL : gostring
}.

Definition NewOllamaClient (e : Environ) : OllamaClient :=
  {| Ollama_URL := if bool_decide (OLLAMA_URL e = []) then str "http://localhost:11434"
                   else OLLAMA_URL e;
     Ollama_Model := if bool_decide (OLLAMA_MODEL e = []) then str "gemma3:1b"
                     else OLLAMA_MODEL e |}.

(** for _, idStr := range strings.Split(ids, ",") { ... allowedUsers[id] = true } *)
Fixpoint parseAllowed (fields : list (option Z)) (allowedUsers : gmap Z bool)
  : gmap Z bool :=
  match fields with
  | [] => allowedUsers
  | Some id :: rest => parseAllowed rest (<[id := true]> allowedUsers)
  | None :: rest => parseAllowed rest allowedUsers
  end.

Definition positiveOr (dflt : Z) (v : option Z) : Z :=
  match v with
  | Some n => if bool_decide (n > 0) then n else dflt
  | None => dflt
  end.

Definition NewTelegramBot (token : gostring) (e : Environ) : World :=
  let allowedUsers :=
    match ALLOWED_USER_IDS e with
    | Some fields => parseAllowed fields ∅
    | None => ∅
    end in
  let startup :=
    match ALLOWED_USER_IDS e with
    | Some _ =>
        EvLog (str "Настроен список разрешённых пользователей: %d пользователь(ей)")
              [AInt (Z.of_nat (size allowedUsers))]
    | None =>
        EvLog (str "ВНИМАНИЕ: ALLOWED_USER_IDS не задан — бот доступен всем пользователям") []
    end in
  {| w_bot :=
       {| Token := token;
          APIURL := str "https://api.telegram.org/bot" ++ token;
          Ollama := NewOllamaClient e;
          LastUpdate := 0;
          AllowedUsers := allowedUsers;
          rateLimiter := ∅;
          maxRequests := positiveOr 10 (RATE_LIMIT_MAX e);
          rateWindow := positiveOr Minute (RATE_LIMIT_WINDOW e);
          maxPromptLen := positiveOr 4096 (MAX_PROMPT_LENGTH e) |};
     w_trace := [startup] |}.

(** *** Access guard and rate limiter *)

(** [isUserAllowed]: [bot.AllowedUsers[id]] of an absent key is [false];
    [message.Chat.ID] of a nil [Chat] panics. *)
Definition isUserAllowed (bot : TelegramBot) (message : Message) : run bool :=
  if bool_decide (size (AllowedUsers bot) = 0%nat) then Returns true
  else
    match Message_From message with
    | Some from => Returns (default false (AllowedUsers bot !! User_ID from))
    | None =>
        match Message_Chat message with
        | Some chat => Returns (default false (AllowedUsers bot !! Chat_ID chat))
        | None => Panics
        end
    end.

(** for _, t := range bot.rateLimiter[userID] {
        if t.After(windowStart) { recent = append(recent, t) }
    } *)
Fixpoint keepRecent (windowStart : Z) (recent stored : list Z) : list Z :=
  match stored with
  | [] => recent
  | t :: rest =>
      keepRecent windowStart
        (if bool_decide (t > windowStart) then recent ++ [t] else recent) rest
  end.

(** [checkRateLimit] when [time.Now()] reads [now]. *)
Definition checkRateLimitAt (now userID : Z) (bot : TelegramBot)
  : bool * TelegramBot :=
  let windowStart := now - rateWindow bot in
  let recent :=
    keepRecent windowStart [] (default [] (rateLimiter bot !! userID)) in
  if bool_decide (len recent >= maxRequests bot) then
    (false, set_rateLimiter (<[userID := recent]> (rateLimiter bot)) bot)
  else
    (true, set_rateLimiter (<[userID := recent ++ [now]]> (rateLimiter bot)) bot).

(** *** The Ollama client (ollama.go) *)

(** The [(string, error)] that [SendPrompt] returns after an exchange:
    [inl] is a response with a nil error, [inr] the text of the error. *)
Definition OllamaResult (x : exchange) : gostring + gostring :=
  match x with
  | MarshalFails e => inr (str "ошибка сериализации запроса: " ++ e)
  | NewRequestFails e => inr (str "ошибка создания HTTP запроса: " ++ e)
  | DoFails e => inr (str "ошибка выполнения HTTP запроса: " ++ e)
  | BadStatus code body =>
      inr (str "Ollama API вернул статус " ++ itoa code ++ str ": " ++ body)
  | ReadFails e => inr (str "ошибка чтения ответа: " ++ e)
  | UnmarshalFails e => inr (str "ошибка парсинга JSON ответа: " ++ e)
  | Decoded r =>
      if bool_decide (Response_Error r ≠ []) then
        inr (str "ошибка от Ollama: " ++ Response_Error r)
      else if negb (Response_Done r) then inr (str "ответ от Ollama не завершен")
      else inl (Response_Response r)
  end.

(** *** The bot's operations *)

Section Operations.

(** [strings.ReplaceAll] of the Go library. *)
Variable ReplaceAll : gostring -> gostring -> gostring -> gostring.
Variable env : Env.

(** [sanitizeError] of a non-nil error, as its text. *)
Definition sanitizeError (bot : TelegramBot) (err : gostring) : gostring :=
  ReplaceAll err (Token bot) (str "[REDACTED]").

Definition checkRateLimit (userID : Z) (w : World) : bool * World :=
  let now := env_now env (w_trace w) in
  let r := checkRateLimitAt now userID (w_bot w) in
  (r.1, with_bot (fun _ => r.2) w).

(** [GetUpdates]: the request it makes and the [(updates, err)] it
    returns, [inr] being a non-nil [err]. *)
Definition GetUpdates (w : World) : (list Update + gostring) * World :=
  let offset := wrap64 (LastUpdate (w_bot w) + 1) in
  (env_fetch env (w_trace w) offset, emit (EvFetch offset 30) w).

(** [SendMessage]: [Some err] is a non-nil error. *)
Definition SendMessage (chatID : Z) (text : gostring) (w : World)
  : option gostring * World :=
  (env_send env (w_trace w) chatID text, emit (EvSend chatID text) w).

(** [bot.Ollama.SendPrompt]: [inl] the response, [inr] a non-nil error. *)
Definition SendPrompt (prompt : gostring) (w : World)
  : (gostring + gostring) * World :=
  (OllamaResult (env_ollama env (w_trace w) prompt), emit (EvPrompt prompt) w).

(** The loop [for i, part := range parts { ... }] of [handleTextMessage],
    from index [i] on; [n] is [len(parts)]. *)
Fixpoint sendParts (chatID n i : Z) (parts : list gostring) (w : World)
  : World :=
  match parts with
  | [] => w
  | part :: rest =>
      let part :=
        if bool_decide (i = 0) && bool_decide (n > 1)
        then part ++ continuationMarker else part in
      let r := SendMessage chatID part w in
      let w :=
        match r.1 with
        | Some err =>
            logPrintf (str "Ошибка отправки части сообщения: %v")
                      [AStr (sanitizeError (w_bot r.2) err)] r.2
        | None => r.2
        end in
      let w := if bool_decide (i < n - 1) then Sleep (100 * Millisecond) w else w in
      sendParts chatID n (i + 1) rest w
  end.

Definition handleTextMessage (chatID : Z) (text : gostring) (w : World)
  : run World :=
  let r := checkRateLimit chatID w in
  let w := r.2 in
  if negb r.1 then Returns (SendMessage chatID msgRateLimited w).2
  else if bool_decide (len text > maxPromptLen (w_bot w)) then
    Returns (SendMessage chatID (msgTooLong (maxPromptLen (w_bot w))) w).2
  else
    let w := (SendMessage chatID msgProcessing w).2 in
    let r := SendPrompt text w in
    let w := r.2 in
    match r.1 with
    | inr err =>
        let w := logPrintf (str "Ошибка от Ollama для chat %d: %v")
                           [AInt chatID; AStr err] w in
        let s := SendMessage chatID msgFailure w in
        Returns
          match s.1 with
          | Some sendErr =>
              logPrintf (str "Ошибка отправки сообщения об ошибке: %v")
                        [AStr (sanitizeError (w_bot s.2) sendErr)] s.2
          | None => s.2
          end
    | inl response =>
        parts ← Segmenter.SplitMessage (S (length response)) response 4000;
        Returns (sendParts chatID (len parts) 0 parts w)
    end.

(** The reply of a recognised command: send it, log a failure to send. *)
Definition sendOrLog (chatID : Z) (msg : gostring) (w : World) : World :=
  let r := SendMessage chatID msg w in
  match r.1 with
  | Some err =>
      logPrintf (str "Ошибка отправки сообщения: %v")
                [AStr (sanitizeError (w_bot r.2) err)] r.2
  | None => r.2
  end.

Definition handleCommand (chatID : Z) (command : gostring) (w : World)
  : run World :=
  if bool_decide (command = str "/start") then Returns (sendOrLog chatID msgStart w)
  else if bool_decide (command = str "/help") then Returns (sendOrLog chatID msgHelp w)
  else handleTextMessage chatID command w.

Definition isCommand (text : gostring) : bool :=
  match text with
  | c :: _ => Ascii.eqb c "/"%char
  | [] => false
  end.

Definition HandleMessage (message : option Message) (w : World) : run World :=
  match message with
  | None => Returns w
  | Some message =>
      match Message_Chat message with
      | None => Returns w
      | Some chat =>
          allowed ← isUserAllowed (w_bot w) message;
          if negb allowed then
            Returns (logPrintf
              (str "Отклонён запрос от неавторизованного пользователя (chat_id: %d)")
              [AInt (Chat_ID chat)] w)
          else
            let chatID := Chat_ID chat in
            let text := Message_Text message in
            if isCommand text then handleCommand chatID text w
            else if bool_decide (text ≠ []) then handleTextMessage chatID text w
            else Returns w
      end
  end.

(** *** The intake loop (main.go) *)

(** for _, update := range updates { ... } *)
Fixpoint processUpdates (updates : list Update) (w : World) : run World :=
  match updates with
  | [] => Returns w
  | update :: rest =>
      let w :=
        if bool_decide (Update_UpdateID update > LastUpdate (w_bot w))
        then with_bot (set_LastUpdate (Update_UpdateID update)) w else w in
      w ← match Update_Message update with
          | Some m => HandleMessage (Some m) w
          | None => Returns w
          end;
      processUpdates rest w
  end.

Inductive status : Type :=
| Polling     (* the loop goes on to its next iteration *)
| Stopped.    (* the goroutine returned *)

(** One iteration of the [for { select { ... } }] of the goroutine of
    [main]. Whether [ctx.Done()] is closed when the iteration starts is the
    environment's. *)
Definition intakeIteration (w : World) : run (status * World) :=
  if env_cancelled env (w_trace w) then Returns (Stopped, w)
  else
    let r := GetUpdates w in
    match r.1 with
    | inr err =>
        let w := logPrintf (str "Ошибка получения обновлений: %v") [AStr err] r.2 in
        let w := Sleep (5 * Second) w in
        Returns (Polling, w)
    | inl updates =>
        w ← processUpdates updates r.2;
        Returns (Polling, w)
    end.

(** The first [n] iterations of the loop. *)
Fixpoint intakeLoop (n : nat) (w : World) : run (status * World) :=
  match n with
  | O => Returns (Polling, w)
  | S n' =>
      r ← intakeIteration w;
      match r.1 with
      | Stopped => Returns r
      | Polling => intakeLoop n' r.2
      end
  end.

End Operations.

(** ** Specifications *)

Definition blank (b : ascii) : Prop := b = space \/ b = newline.

(** [chunk1 ++ w1 ++ chunk2 ++ w2 ++ ...], the [ws] that are missing
    counting as empty. *)
Fixpoint interleave (chunks ws : list gostring) : gostring :=
  match chunks with
  | [] => []
  | c :: cs =>
      match ws with
      | [] => c ++ interleave cs []
      | w :: ws' => c ++ w ++ interleave cs ws'
      end
  end.

(** The text is the chunks with a run of blanks between each two. *)
Definition reconstructs_between (text : gostring) (chunks : list gostring) : Prop :=
  exists ws : list gostring,
    length ws = pred (length chunks) /\ Forall (Forall blank) ws /\
    text = interleave chunks ws.

(** The text is the chunks with a run of blanks after each of them. *)
Definition reconstructs (text : gostring) (chunks : list gostring) : Prop :=
  exists ws : list gostring,
    length ws = length chunks /\ Forall (Forall blank) ws /\
    text = interleave chunks ws.

(** [sub] occurs in [s]. *)
Definition contains (s sub : gostring) : Prop :=
  exists a b : gostring, s = a ++ sub ++ b.

Fixpoint hasPrefix (s p : gostring) {struct p} : bool :=
  match p, s with
  | [], _ => true
  | _ :: _, [] => false
  | a :: p', b :: s' => Ascii.eqb a b && hasPrefix s' p'
  end.

Fixpoint containsb (s sub : gostring) : bool :=
  hasPrefix s sub ||
  match s with
  | [] => false
  | _ :: s' => containsb s' sub
  end.

(** A [strings.ReplaceAll] for a non-empty [old], to run the model on
    examples: [skip] bytes of a match are still to be dropped. *)
Fixpoint replaceFrom (old new : gostring) (skip : nat) (s : gostring)
  : gostring :=
  match s with
  | [] => []
  | c :: s' =>
      match skip with
      | S k => replaceFrom old new k s'
      | O =>
          if hasPrefix s old then new ++ replaceFrom old new (pred (length old)) s'
          else c :: replaceFrom old new 0 s'
      end
  end.

Definition replaceAll (s old new : gostring) : gostring :=
  replaceFrom old new 0 s.

(** The calls of [SendMessage] in a trace, in order. *)
Fixpoint sends (t : list event) : list (Z * gostring) :=
  match t with
  | [] => []
  | EvSend chatID text :: t' => (chatID, text) :: sends t'
  | _ :: t' => sends t'
  end.

(** The texts sent for the parts of a reply: the first carries the marker
    when there is more than one. *)
Definition marked (parts : list gostring) : list gostring :=
  match parts with
  | part :: (_ :: _) as rest => (part ++ continuationMarker) :: rest
  | _ => parts
  end.

(** The reference: the sliding window as the specification words it, on
    the timestamps kept for one identity. Drop those that are [<=
    windowStart]; reject and keep the pruned list if [N] or more remain;
    otherwise append [now] and accept. *)
Definition refCheckAndRecord (N W now : Z) (kept : list Z) : bool * list Z :=
  let windowStart := now - W in
  let remaining := filter (fun t => ~ t <= windowStart) kept in
  if bool_decide (len remaining >= N) then (false, remaining)
  else (true, remaining ++ [now]).

(** A sequence of calls [(userID, now)] of the reference, on a state that
    gives every identity its list. *)
Fixpoint refCalls (N W : Z) (calls : list (Z * Z)) (st : Z -> list Z)
  : list bool * (Z -> list Z) :=
  match calls with
  | [] => ([], st)
  | (userID, now) :: rest =>
      let r := refCheckAndRecord N W now (st userID) in
      let st' := fun id => if bool_decide (id = userID) then r.2 else st id in
      let rs := refCalls N W rest st' in
      (r.1 :: rs.1, rs.2)
  end.

(** The same sequence of calls of [checkRateLimit]. *)
Fixpoint rateCalls (calls : list (Z * Z)) (bot : TelegramBot)
  : list bool * TelegramBot :=
  match calls with
  | [] => ([], bot)
  | (userID, now) :: rest =>
      let r := checkRateLimitAt now userID bot in
      let rs := rateCalls rest r.2 in
      (r.1 :: rs.1, rs.2)
  end.

(** The timestamps the limiter holds for an identity. *)
Definition stored (bot : TelegramBot) (userID : Z) : list Z :=
  default [] (rateLimiter bot !! userID).

(** ** Settings, messages and environments to run the model on *)

(** The settings when only the allow-list and the prompt limit are set. *)
Definition environWith (ids : option (list (option Z))) (promptLen : option Z)
  : Environ :=
  {| ALLOWED_USER_IDS := ids; RATE_LIMIT_MAX := None;
     RATE_LIMIT_WINDOW := None; MAX_PROMPT_LENGTH := promptLen;
     OLLAMA_URL := []; OLLAMA_MODEL := [] |}.

(** No variable set: every default applies. *)
Definition defaultEnviron : Environ := environWith None None.

Definition exampleToken : gostring := str "123456:SECRET".

Definition userOf (id : Z) : User :=
  {| User_ID := id; User_FirstName := str "Ann"; User_Username := [] |}.

Definition privateChat (id : Z) : Chat :=
  {| Chat_ID := id; Chat_Type := str "private"; Chat_FirstName := str "Ann";
     Chat_Username := [] |}.

Definition textMessage (from : option User) (chat : option Chat)
    (text : gostring) : Message :=
  {| Message_MessageID := 1; Message_From := from; Message_Chat := chat;
     Message_Text := text; Message_Date := 0 |}.

(** An environment in which every Ollama exchange comes to [x], every
    fetch to [fetch], every send succeeds, the clock advances by a second
    with every effect and no shutdown is asked for. *)
Definition steadyEnv (x : exchange) (fetch : list Update + gostring) : Env :=
  {| env_now := fun t => Z.of_nat (length t) * Second;
     env_ollama := fun _ _ => x;
     env_send := fun _ _ _ => None;
     env_fetch := fun _ _ => fetch;
     env_cancelled := fun _ => false |}.

(** A completed generation with the given text. *)
Definition generated (response : gostring) : exchange :=
  Decoded {| Response_Response := response; Response_Done := true;
             Response_Error := [] |}.

(** The sends of a run that returned. *)
Definition sendsOf (r : run World) : option (list (Z * gostring)) :=
  match r with
  | Returns w => Some (sends (w_trace w))
  | _ => None
  end.

Definition longReply : gostring := repeat "a"%char (Z.to_nat 9000).

(** ** Further notions used to describe the code *)

(** The [maxLen] the splitting loop runs with. *)
Definition effectiveMaxLen (maxLen : Z) : Z :=
  if bool_decide (maxLen <= 0) then 4000 else maxLen.

(** The first, the last byte of a string is a space or a newline. *)
Definition startsBlank (s : gostring) : Prop :=
  exists b, head s = Some b /\ blank b.
Definition endsBlank (s : gostring) : Prop :=
  exists b, last s = Some b /\ blank b.

(** The calls [(userID, now)] are in the order of their times, which lie
    between [t0] and [tend]. *)
Fixpoint chronological (t0 : Z) (calls : list (Z * Z)) (tend : Z) : Prop :=
  match calls with
  | [] => t0 <= tend
  | (_, now) :: rest => t0 <= now /\ chronological now rest tend
  end.

(** The times of the calls of [userID] that were answered [true]. *)
Fixpoint acceptedOf (userID : Z) (calls : list (Z * Z)) (results : list bool)
  : list Z :=
  match calls, results with
  | (u, now) :: calls', ok :: results' =>
      if bool_decide (u = userID) && ok
      then now :: acceptedOf userID calls' results'
      else acceptedOf userID calls' results'
  | _, _ => []
  end.

(** The answers given to the calls of [userID]. *)
Fixpoint answersFor (userID : Z) (calls : list (Z * Z)) (results : list bool)
  : list bool :=
  match calls, results with
  | (u, _) :: calls', ok :: results' =>
      if bool_decide (u = userID)
      then ok :: answersFor userID calls' results'
      else answersFor userID calls' results'
  | _, _ => []
  end.

(** The prompts given to the backend, the sleeps, the fetch offsets and
    the log lines of a trace, in order. *)
Fixpoint prompts (t : list event) : list gostring :=
  match t with
  | [] => []
  | EvPrompt prompt :: t' => prompt :: prompts t'
  | _ :: t' => prompts t'
  end.

Fixpoint sleeps (t : list event) : list Z :=
  match t with
  | [] => []
  | EvSleep d :: t' => d :: sleeps t'
  | _ :: t' => sleeps t'
  end.

Fixpoint fetches (t : list event) : list Z :=
  match t with
  | [] => []
  | EvFetch offset _ :: t' => offset :: fetches t'
  | _ :: t' => fetches t'
  end.

(** ** The first version of the bot and of the loop of [main] *)

Definition msgStart_v1 : gostring :=
  str "Привет! Я бот для работы с Ollama LLM." ++ [newline; newline]
  ++ str "Просто отправь мне сообщение, и я передам его модели gemma3:1b для генерации ответа."
  ++ [newline; newline]
  ++ str "Используй /help для получения справки.".

(** fmt.Sprintf("Произошла ошибка при обращении к Ollama:\n\n%s", err.Error()) *)
Definition msgOllamaError_v1 (err : gostring) : gostring :=
  str "Произошла ошибка при обращении к Ollama:" ++ [newline; newline] ++ err.

Section OperationsV1.

(** [SplitMessage] of the utils.go the bot is built with, its loop run to
    the end. *)
Variable SplitMessage : gostring -> Z -> run (list gostring).
Variable env : Env.

(** The sending loop of the first [handleTextMessage]: errors are logged
    as they are. *)
Fixpoint sendParts_v1 (chatID n i : Z) (parts : list gostring) (w : World)
  : World :=
  match parts with
  | [] => w
  | part :: rest =>
      let part :=
        if bool_decide (i = 0) && bool_decide (n > 1)
        then part ++ continuationMarker else part in
      let r := SendMessage env chatID part w in
      let w :=
        match r.1 with
        | Some err =>
            logPrintf (str "Ошибка отправки части сообщения: %v") [AStr err] r.2
        | None => r.2
        end in
      let w := if bool_decide (i < n - 1) then Sleep (100 * Millisecond) w else w in
      sendParts_v1 chatID n (i + 1) rest w
  end.

Definition handleTextMessage_v1 (chatID : Z) (text : gostring) (w : World)
  : run World :=
  let w := (SendMessage env chatID msgProcessing w).2 in
  let r := SendPrompt env text w in
  let w := r.2 in
  match r.1 with
  | inr err =>
      let errorMsg := msgOllamaError_v1 err in
      let s := SendMessage env chatID errorMsg w in
      Returns
        match s.1 with
        | Some sendErr =>
            logPrintf (str "Ошибка отправки сообщения об ошибке: %v")
                      [AStr sendErr] s.2
        | None => s.2
        end
  | inl response =>
      parts ← SplitMessage response 4000;
      Returns (sendParts_v1 chatID (len parts) 0 parts w)
  end.

Definition sendOrLog_v1 (chatID : Z) (msg : gostring) (w : World) : World :=
  let r := SendMessage env chatID msg w in
  match r.1 with
  | Some err => logPrintf (str "Ошибка отправки сообщения: %v") [AStr err] r.2
  | None => r.2
  end.

Definition handleCommand_v1 (chatID : Z) (command : gostring) (w : World)
  : run World :=
  if bool_decide (command = str "/start") then Returns (sendOrLog_v1 chatID msgStart_v1 w)
  else if bool_decide (command = str "/help") then Returns (sendOrLog_v1 chatID msgHelp w)
  else handleTextMessage_v1 chatID command w.

Definition HandleMessage_v1 (message : option Message) (w : World) : run World :=
  match message with
  | None => Returns w
  | Some message =>
      match Message_Chat message with
      | None => Returns w
      | Some chat =>
          let chatID := Chat_ID chat in
          let text := Message_Text message in
          if isCommand text then handleCommand_v1 chatID text w
          else if bool_decide (text ≠ []) then handleTextMessage_v1 chatID text w
          else Returns w
      end
  end.

Fixpoint processUpdates_v1 (updates : list Update) (w : World) : run World :=
  match updates with
  | [] => Returns w
  | update :: rest =>
      let w :=
        if bool_decide (Update_UpdateID update > LastUpdate (w_bot w))
        then with_bot (set_LastUpdate (Update_UpdateID update)) w else w in
      w ← match Update_Message update with
          | Some m => HandleMessage_v1 (Some m) w
          | None => Returns w
          end;
      processUpdates_v1 rest w
  end.

(** One iteration of the [for { ... }] of the first [main]: no test of a
    shutdown, no pause after an error. *)
Definition intakeIteration_v1 (w : World) : run World :=
  let r := GetUpdates env w in
  match r.1 with
  | inr err =>
      Returns (logPrintf (str "Ошибка получения обновлений: %v") [AStr err] r.2)
  | inl updates => processUpdates_v1 updates r.2
  end.

Fixpoint intakeLoop_v1 (n : nat) (w : World) : run World :=
  match n with
  | O => Returns w
  | S n' => w' ← intakeIteration_v1 w; intakeLoop_v1 n' w'
  end.

End OperationsV1.

(** [isUserAllowed] on the pointer it receives: [None] is a nil
    [*Message], whose [From] cannot be read. *)
Definition isUserAllowed_ptr (bot : TelegramBot) (message : option Message)
  : run bool :=
  if bool_decide (size (AllowedUsers bot) = 0%nat) then Returns true
  else
    match message with
    | None => Panics
    | Some message => isUserAllowed bot message
    end.

(** The sends, the prompts and the sleeps of a trace, in their order; log
    lines and fetches are left out. *)
Fixpoint paced (t : list event) : list event :=
  match t with
  | [] => []
  | EvSend chatID text :: t' => EvSend chatID text :: paced t'
  | EvPrompt prompt :: t' => EvPrompt prompt :: paced t'
  | EvSleep d :: t' => EvSleep d :: paced t'
  | _ :: t' => paced t'
  end.

(** The texts sent one after the other to a chat, with a sleep of 100 ms
    between two of them and none after the last. *)
Fixpoint chunkEvents (chatID : Z) (texts : list gostring) : list event :=
  match texts with
  | [] => []
  | text :: rest =>
      EvSend chatID text ::
      match rest with
      | [] => []
      | _ :: _ => EvSleep (100 * Millisecond) :: chunkEvents chatID rest
      end
  end.

(** ** Proofs: the segmenter *)

Section SegmenterProofs.

Import Segmenter.

Lemma len_nonneg {A} (s : list A) : 0 <= len s.
Proof. unfold len. lia. Qed.

Lemma len_app {A} (s t : list A) : len (s ++ t) = len s + len t.
Proof. unfold len. rewrite length_app. lia. Qed.

Lemma index_in_range (s : gostring) (i : Z) :
  0 <= i < len s -> exists b, index s i = Returns b /\ s !! Z.to_nat i = Some b.
Proof.
  intros Hi. unfold index, len in *.
  rewrite bool_decide_eq_true_2 by lia.
  destruct (s !! Z.to_nat i) as [b|] eqn:E.
  - eauto.
  - apply lookup_ge_None in E. lia.
Qed.

(** The backward search returns; what it finds is a position of the
    window that holds the byte looked for. *)
Lemma scanBack_spec (c : ascii) (current : gostring) (lo : Z) (i : nat) :
  (i <= length current)%nat ->
  exists r, scanBack c current lo i = Returns r /\
    match r with
    | Some p => 0 < p <= Z.of_nat i /\ lo < p /\
                current !! Z.to_nat (p - 1) = Some c
    | None => True
    end.
Proof.
  induction i as [|j IH]; intros Hi.
  - exists None. done.
  - cbn [scanBack]. case_bool_decide as Hlo.
    + destruct (index_in_range current (Z.of_nat (S j) - 1)) as (b & Hb & Hl).
      { unfold len. lia. }
      rewrite Hb. cbn. destruct (Ascii.eqb b c) eqn:E.
      * apply Ascii.eqb_eq in E. subst b.
        exists (Some (Z.of_nat (S j))). split; [done|]. repeat split; lia || done.
      * destruct IH as (r & Hr & Hspec); [lia|].
        exists r. split; [done|]. destruct r as [p|]; [|done].
        destruct Hspec as (? & ? & ?). repeat split; lia || done.
    + exists None. done.
Qed.

(** Inside the loop the cut is in [1, maxLen], and less than 100 bytes
    before [maxLen]. *)
Lemma findSplit_spec (current : gostring) (maxLen : Z) :
  0 < maxLen < len current ->
  exists splitPos, findSplit current maxLen = Returns splitPos /\
    0 < splitPos <= maxLen /\ maxLen - 100 < splitPos.
Proof.
  intros Hm. unfold findSplit.
  destruct (scanBack_spec newline current (maxLen - 100) (Z.to_nat maxLen))
    as (nl & -> & Hnl); [unfold len in Hm; lia|].
  cbn.
  assert (exists sp, (if bool_decide (match nl with Some i => i | None => maxLen end = maxLen)
            then scanBack space current (maxLen - 50) (Z.to_nat maxLen)
            else Returns None) = Returns sp /\
           match sp with
           | Some p => 0 < p <= maxLen /\ maxLen - 50 < p
           | None => True
           end) as (sp & -> & Hsp).
  { case_bool_decide.
    - destruct (scanBack_spec space current (maxLen - 50) (Z.to_nat maxLen))
        as (sp & -> & Hsp); [unfold len in Hm; lia|].
      exists sp. split; [done|]. destruct sp; [|done]. lia.
    - exists None. done. }
  cbn. eexists. split; [reflexivity|].
  destruct sp as [p|], nl as [q|]; repeat case_bool_decide; cbn; lia.
Qed.

Lemma skipLeading_spec (rest : gostring) :
  exists w, Forall blank w /\ rest = w ++ skipLeading rest.
Proof.
  induction rest as [|b rest (w & Hw & IH)].
  - exists []. done.
  - cbn [skipLeading]. destruct (Ascii.eqb b space || Ascii.eqb b newline) eqn:E.
    + exists (b :: w). split; [|cbn; congruence].
      constructor; [|done]. apply orb_true_iff in E.
      destruct E as [E|E]; apply Ascii.eqb_eq in E; [left|right]; done.
    + exists []. done.
Qed.

Lemma skipLeading_length (rest : gostring) :
  (length (skipLeading rest) <= length rest)%nat.
Proof.
  destruct (skipLeading_spec rest) as (w & _ & E).
  rewrite E at 2. rewrite length_app. lia.
Qed.

(** One iteration of the loop, when it is entered with a positive [maxLen]. *)
Lemma splitLoop_step (maxLen : Z) (current : gostring) :
  0 < maxLen < len current ->
  exists splitPos, 0 < splitPos <= maxLen /\ maxLen - 100 < splitPos /\
    forall fuel parts,
      splitLoop (S fuel) maxLen parts current
      = splitLoop fuel maxLen (parts ++ [take (Z.to_nat splitPos) current])
          (skipLeading (drop (Z.to_nat splitPos) current)).
Proof.
  intros Hm. destruct (findSplit_spec current maxLen Hm) as (sp & Hsp & Hb & Hlo).
  exists sp. split; [done|]. split; [done|]. intros fuel parts.
  cbn [splitLoop]. rewrite bool_decide_eq_true_2 by lia.
  rewrite Hsp. cbn. unfold slice_to, slice_from.
  rewrite bool_decide_eq_true_2 by lia. cbn. done.
Qed.

Lemma splitLoop_exit (fuel : nat) (maxLen : Z) (parts : list gostring)
    (current : gostring) :
  len current <= maxLen ->
  splitLoop fuel maxLen parts current
  = Returns (if bool_decide (len current > 0) then parts ++ [current] else parts).
Proof.
  intros H. destruct fuel; cbn [splitLoop]; rewrite bool_decide_eq_false_2 by lia; done.
Qed.

(** The loop returns once its fuel is the length of what is left to split;
    the chunks it adds rebuild [current], none is longer than [maxLen], and
    each iteration but the last consumes more than [maxLen - 100] bytes. *)
Lemma splitLoop_spec (maxLen : Z) (n : nat) :
  0 < maxLen ->
  forall current : gostring, (length current <= n)%nat ->
  exists chunks : list gostring,
    (forall parts k, splitLoop (n + k) maxLen parts current = Returns (parts ++ chunks)) /\
    reconstructs current chunks /\
    Forall (fun c => 0 < len c <= maxLen) chunks /\
    (current <> [] -> chunks <> []) /\
    (forall j : nat, len current <= maxLen + Z.of_nat j * (maxLen - 99) ->
                     (length chunks <= S j)%nat).
Proof.
  intros Hpos. induction n as [|n IH]; intros current Hn.
  - destruct current; [|cbn in Hn; lia].
    exists []. split; [|split; [|split; [|split]]].
    + intros parts k. rewrite splitLoop_exit by (unfold len; cbn; lia).
      cbn. by rewrite app_nil_r.
    + exists []. done.
    + constructor.
    + done.
    + intros; cbn; lia.
  - destruct (decide (len current <= maxLen)) as [Hle|Hgt].
    + destruct (decide (len current > 0)) as [Hne|He].
      * exists [current]. split; [|split; [|split; [|split]]].
        -- intros parts k. rewrite splitLoop_exit by done.
           by rewrite bool_decide_eq_true_2.
        -- exists [[]]. repeat split; [repeat constructor|].
           cbn. by rewrite !app_nil_r.
        -- repeat constructor; lia.
        -- done.
        -- intros; cbn; lia.
      * assert (current = []) as -> by (destruct current; [done|unfold len in He; cbn in He; lia]).
        exists []. split; [|split; [|split; [|split]]].
        -- intros parts k. rewrite splitLoop_exit by (unfold len; cbn; lia).
           cbn. by rewrite app_nil_r.
        -- exists []. done.
        -- constructor.
        -- done.
        -- intros; cbn; lia.
    + destruct (splitLoop_step maxLen current) as (sp & Hsp & Hlo & Hstep); [lia|].
      set (part := take (Z.to_nat sp) current) in *.
      set (rest := drop (Z.to_nat sp) current) in *.
      assert (Hcur : current = part ++ rest) by (symmetry; apply take_drop).
      assert (Hlp : len part = sp).
      { unfold part, len in *. rewrite length_take. lia. }
      assert (Hlr : len rest = len current - sp).
      { unfold rest, len in *. rewrite length_drop. lia. }
      pose proof (skipLeading_length rest) as Hsk.
      destruct (IH (skipLeading rest)) as (chunks & Hrun & Hrec & Hlen & _ & Hcount).
      { unfold len in *. lia. }
      exists (part :: chunks). split; [|split; [|split; [|split]]].
      * intros parts k. replace (S n + k)%nat with (S (n + k)) by lia.
        rewrite Hstep, Hrun, <- app_assoc. done.
      * destruct Hrec as (ws & Hws & Hbl & Hrec).
        destruct (skipLeading_spec rest) as (w & Hw & Hrest).
        exists (w :: ws). split; [cbn; lia|]. split; [by constructor|].
        cbn. rewrite <- Hrec, <- Hrest. done.
      * constructor; [lia|done].
      * done.
      * intros j Hj. destruct j as [|j].
        -- cbn in Hj. lia.
        -- cbn [length]. apply le_n_S, Hcount.
           unfold len in *. nia.
Qed.

(** What [SplitMessage] returns for a positive [maxLen]. *)
Lemma SplitMessage_spec (text : gostring) (maxLen : Z) :
  0 < maxLen ->
  exists parts : list gostring,
    (forall k, SplitMessage (length text + k) text maxLen = Returns parts) /\
    reconstructs text parts /\
    Forall (fun c => len c <= maxLen) parts /\
    parts <> [] /\
    (forall j : nat, len text <= maxLen + Z.of_nat j * (maxLen - 99) ->
                     (length parts <= S j)%nat).
Proof.
  intros Hpos. unfold SplitMessage.
  destruct (decide (len text <= maxLen)) as [Hle|Hgt].
  - exists [text]. split; [|split; [|split; [|split]]].
    + intros k. by rewrite bool_decide_eq_true_2.
    + exists [[]]. repeat split; [repeat constructor|]. cbn. by rewrite !app_nil_r.
    + by repeat constructor.
    + done.
    + intros; cbn; lia.
  - destruct (splitLoop_spec maxLen (length text) Hpos text)
      as (chunks & Hrun & Hrec & Hlen & Hne & Hcount); [done|].
    exists chunks. split; [|split; [|split; [|split]]].
    + intros k. rewrite bool_decide_eq_false_2 by done.
      rewrite bool_decide_eq_false_2 by lia. apply Hrun.
    + done.
    + eapply Forall_impl; [exact Hlen|]. cbn. lia.
    + apply Hne. intros ->. unfold len in Hgt. cbn in Hgt. lia.
    + done.
Qed.

Lemma splitLoop_S (fuel : nat) (maxLen : Z) (parts : list gostring)
    (current : gostring) :
  splitLoop (S fuel) maxLen parts current
  = if bool_decide (len current > maxLen) then
      splitPos ← findSplit current maxLen;
      part ← slice_to current splitPos;
      rest ← slice_from current splitPos;
      splitLoop fuel maxLen (parts ++ [part]) (skipLeading rest)
    else
      Returns (if bool_decide (len current > 0) then parts ++ [current]
               else parts).
Proof. reflexivity. Qed.

(** More fuel does not change what the loop returns. *)
Lemma splitLoop_fuel_mono (fuel : nat) (maxLen : Z) :
  forall parts current out,
    splitLoop fuel maxLen parts current = Returns out ->
    splitLoop (S fuel) maxLen parts current = Returns out.
Proof.
  induction fuel as [|fuel IH]; intros parts current out H.
  - cbn [splitLoop] in *. case_bool_decide; [discriminate|done].
  - rewrite splitLoop_S in H. rewrite splitLoop_S.
    case_bool_decide; [|done].
    destruct (findSplit current maxLen) as [sp| |]; cbn in *; try discriminate.
    destruct (slice_to current sp) as [part| |]; cbn in *; try discriminate.
    destruct (slice_from current sp) as [rest| |]; cbn in *; try discriminate.
    by apply IH.
Qed.

Lemma SplitMessage_fuel_mono (fuel d : nat) (text : gostring) (maxLen : Z)
    (parts : list gostring) :
  SplitMessage fuel text maxLen = Returns parts ->
  SplitMessage (d + fuel) text maxLen = Returns parts.
Proof.
  unfold SplitMessage. case_bool_decide; [done|]. intros Hrun.
  induction d as [|d IH]; [done|]. by apply splitLoop_fuel_mono.
Qed.

(** Without the guard on [maxLen] the loop of the first version makes no
    progress at [maxLen = 0]. *)
Lemma splitLoop_v1_stuck (fuel : nat) (parts : list gostring) (b : ascii)
    (current : gostring) :
  splitLoop_v1 fuel 0 parts (b :: current) = OutOfFuel.
Proof.
  revert parts. induction fuel as [|fuel IH]; intros parts; [done|].
  cbn [splitLoop_v1]. rewrite bool_decide_eq_true_2 by (unfold len; cbn; lia).
  cbn. apply IH.
Qed.

(** C7. [SplitMessage] terminates for every text and every [maxLen]: with
    the length of the text as fuel, or more, it returns its parts, it does
    not panic and the loop does not run on. A [maxLen] that is not positive
    is replaced by 4000 before the loop is entered. *)
Theorem SplitMessage_terminates (text : gostring) (maxLen : Z) (fuel m : nat) :
  (exists parts : list gostring,
     forall k, SplitMessage (length text + k) text maxLen = Returns parts) /\
  SplitMessage fuel text (- Z.of_nat m)
  = if bool_decide (len text <= - Z.of_nat m) then Returns [text]
    else splitLoop fuel 4000 [] text.
Proof.
  split.
  - destruct (decide (0 < maxLen)) as [Hpos|Hneg].
    + destruct (SplitMessage_spec text maxLen Hpos) as (parts & Hrun & _).
      by exists parts.
    + unfold SplitMessage. case_bool_decide.
      * by exists [text].
      * rewrite bool_decide_eq_true_2 by lia.
        destruct (splitLoop_spec 4000 (length text) ltac:(lia) text)
          as (chunks & Hrun & _); [done|].
        exists chunks. intros k. apply Hrun.
  - unfold SplitMessage. case_bool_decide; [done|].
    by rewrite bool_decide_eq_true_2 by lia.
Qed.

(** C2, as stated, fails: blanks left after the last cut are skipped and
    no chunk follows them, so the text is not the chunks with blanks
    between them only. *)
Lemma SplitMessage_drops_trailing_blanks :
  0 < 2 /\
  SplitMessage 1 (str "ab   ") 2 = Returns [str "ab"] /\
  ~ reconstructs_between (str "ab   ") [str "ab"].
Proof.
  split; [lia|]. split; [vm_compute; reflexivity|].
  intros (ws & Hl & _ & E). destruct ws as [|w ws]; [|discriminate Hl].
  vm_compute in E. discriminate E.
Qed.

(** C2, amended. For every text and every [maxLen > 0], [SplitMessage]
    returns chunks that rebuild the text once a run of spaces and newlines
    (possibly empty) is put back after each chunk, the last one included:
    [text = chunk1 ++ w1 ++ ... ++ chunkN ++ wN]. *)
Theorem SplitMessage_reconstructs (text : gostring) (maxLen : Z) :
  0 < maxLen ->
  exists parts : list gostring,
    (forall k, SplitMessage (length text + k) text maxLen = Returns parts) /\
    reconstructs text parts.
Proof.
  intros Hpos.
  destruct (SplitMessage_spec text maxLen Hpos) as (parts & Hrun & Hrec & _).
  by exists parts.
Qed.

Lemma SplitMessage_reconstructs_witness :
  0 < 2 /\
  exists parts : list gostring,
    (forall k, SplitMessage (length (str "ab   ") + k) (str "ab   ") 2
               = Returns parts) /\
    reconstructs (str "ab   ") parts.
Proof.
  split; [lia|]. apply (SplitMessage_reconstructs (str "ab   ") 2). lia.
Defined.

End SegmenterProofs.

(** ** Proofs: the rate limiter *)

Section RateLimiterProofs.

(** The filtering loop is [filter], appended to what was kept already. *)
Lemma keepRecent_filter (windowStart : Z) (recent kept : list Z) :
  keepRecent windowStart recent kept
  = recent ++ filter (fun t => ~ t <= windowStart) kept.
Proof.
  revert recent. induction kept as [|t kept IH]; intros recent; cbn [keepRecent].
  - by rewrite app_nil_r.
  - rewrite IH. rewrite filter_cons. case_bool_decide; case_decide; try lia.
    + by rewrite <- app_assoc.
    + done.
Qed.

Lemma stored_set_rateLimiter (m : gmap Z (list Z)) (bot : TelegramBot) (id : Z) :
  stored (set_rateLimiter m bot) id = default [] (m !! id).
Proof. reflexivity. Qed.

(** One call of [checkRateLimit] is one call of the reference on the list
    of the identity, and leaves the other lists alone. *)
Lemma checkRateLimitAt_ref (now userID : Z) (bot : TelegramBot) :
  let r := checkRateLimitAt now userID bot in
  let r' := refCheckAndRecord (maxRequests bot) (rateWindow bot) now
              (stored bot userID) in
  r.1 = r'.1 /\
  (forall id, stored r.2 id = if bool_decide (id = userID) then r'.2 else stored bot id) /\
  maxRequests r.2 = maxRequests bot /\ rateWindow r.2 = rateWindow bot.
Proof.
  cbn zeta. unfold checkRateLimitAt, refCheckAndRecord.
  rewrite keepRecent_filter. cbn [app]. fold (stored bot userID).
  case_bool_decide; cbn [fst snd]; (split; [done|]); (split; [|done]);
    intros id; rewrite stored_set_rateLimiter;
    case_bool_decide; subst; by simplify_map_eq.
Qed.

Lemma rateCalls_ref (N W : Z) (calls : list (Z * Z)) :
  forall (bot : TelegramBot) (st : Z -> list Z),
    maxRequests bot = N -> rateWindow bot = W ->
    (forall id, stored bot id = st id) ->
    (rateCalls calls bot).1 = (refCalls N W calls st).1 /\
    (forall id, stored (rateCalls calls bot).2 id = (refCalls N W calls st).2 id).
Proof.
  induction calls as [|[userID now] calls IH]; intros bot st HN HW Hst.
  - done.
  - cbn [rateCalls refCalls fst snd].
    destruct (checkRateLimitAt_ref now userID bot) as (Hok & Hstored & HN' & HW').
    cbn zeta in *. rewrite HN, HW, Hst in *.
    destruct (IH (checkRateLimitAt now userID bot).2
                (fun id => if bool_decide (id = userID)
                           then (refCheckAndRecord N W now (st userID)).2
                           else st id)) as (IH1 & IH2).
    + congruence.
    + congruence.
    + intros id. rewrite Hstored. case_bool_decide; [done|apply Hst].
    + split; [|done]. by rewrite Hok, IH1.
Qed.

(** C1. For every identity and every sequence of calls, [checkRateLimit]
    answers as the reference sliding window does and keeps the same
    timestamps: drop those [<= now - W], reject and store the pruned list
    when [N] or more remain, else append [now] and accept. With [N = 2]
    and a window of 60 s, calls at 0, 1 and 2 s for one identity give
    true, true, false, and a call at 61 s gives true again. *)
Theorem checkRateLimit_sliding_window (calls : list (Z * Z)) (bot : TelegramBot)
    (userID : Z) (token apiurl : gostring) (ollama : OllamaClient)
    (lastUpdate promptLen : Z) (allowed : gmap Z bool) :
  (rateCalls calls bot).1
  = (refCalls (maxRequests bot) (rateWindow bot) calls (stored bot)).1 /\
  (forall id,
     stored (rateCalls calls bot).2 id
     = (refCalls (maxRequests bot) (rateWindow bot) calls (stored bot)).2 id) /\
  (rateCalls [(userID, 0); (userID, 1 * Second); (userID, 2 * Second);
              (userID, 61 * Second)]
     {| Token := token; APIURL := apiurl; Ollama := ollama;
        LastUpdate := lastUpdate; AllowedUsers := allowed;
        rateLimiter := ∅; maxRequests := 2; rateWindow := 60 * Second;
        maxPromptLen := promptLen |}).1
  = [true; true; false; true].
Proof.
  split; [|split].
  - by apply rateCalls_ref.
  - by apply rateCalls_ref.
  - match goal with |- (rateCalls ?c ?b).1 = _ =>
      rewrite (proj1 (rateCalls_ref 2 (60 * Second) c b (stored b) eq_refl eq_refl
                        (fun _ => eq_refl)))
    end.
    cbn [refCalls fst snd]. rewrite !bool_decide_eq_true_2 by done.
    unfold stored. cbn [rateLimiter]. rewrite lookup_empty. reflexivity.
Qed.

(** The bound on the stored lists is kept by every call. *)
Lemma checkRateLimitAt_bounded (now userID : Z) (bot : TelegramBot) :
  (forall id, len (stored bot id) <= maxRequests bot) ->
  forall id, len (stored (checkRateLimitAt now userID bot).2 id) <= maxRequests bot.
Proof.
  intros Hinv id.
  destruct (checkRateLimitAt_ref now userID bot) as (_ & Hstored & _).
  cbn zeta in Hstored. rewrite Hstored. case_bool_decide; [|apply Hinv].
  unfold refCheckAndRecord.
  pose proof (length_filter (fun t => ~ t <= now - rateWindow bot) (stored bot userID)) as Hf.
  specialize (Hinv userID).
  case_bool_decide; cbn [snd]; [|rewrite len_app]; unfold len in *; cbn; lia.
Qed.

Lemma rateCalls_bounded (calls : list (Z * Z)) :
  forall bot : TelegramBot,
    (forall id, len (stored bot id) <= maxRequests bot) ->
    maxRequests (rateCalls calls bot).2 = maxRequests bot /\
    forall id, len (stored (rateCalls calls bot).2 id) <= maxRequests bot.
Proof.
  induction calls as [|[userID now] calls IH]; intros bot Hinv; [done|].
  cbn [rateCalls snd].
  destruct (checkRateLimitAt_ref now userID bot) as (_ & _ & HN & _).
  cbn zeta in HN.
  destruct (IH (checkRateLimitAt now userID bot).2) as (IH1 & IH2).
  - rewrite HN. by apply checkRateLimitAt_bounded.
  - rewrite <- HN. done.
Qed.

(** A bot fresh from [NewTelegramBot] has an empty limiter and positive
    settings. *)
Lemma NewTelegramBot_settings (token : gostring) (e : Environ) :
  let bot := w_bot (NewTelegramBot token e) in
  rateLimiter bot = ∅ /\ LastUpdate bot = 0 /\
  0 < maxRequests bot /\ 0 < rateWindow bot /\ 0 < maxPromptLen bot.
Proof.
  cbn. unfold positiveOr.
  destruct (RATE_LIMIT_MAX e), (RATE_LIMIT_WINDOW e), (MAX_PROMPT_LENGTH e);
    repeat case_bool_decide; repeat split; lia || done.
Qed.

(** C9. Starting from the empty map, after every sequence of calls of
    [checkRateLimit] each identity has at most [maxRequests] timestamps
    stored (the capacity is never negative: [NewTelegramBot] makes it
    positive); a call stores the pruned list, followed by [now] only when
    it accepts. *)
Theorem rateLimiter_bounded (calls : list (Z * Z)) (bot : TelegramBot)
    (now userID : Z) :
  rateLimiter bot = ∅ -> 0 <= maxRequests bot ->
  (forall id, len (stored (rateCalls calls bot).2 id) <= maxRequests bot) /\
  stored (checkRateLimitAt now userID (rateCalls calls bot).2).2 userID
  = filter (fun t => ~ t <= now - rateWindow bot)
      (stored (rateCalls calls bot).2 userID)
    ++ (if (checkRateLimitAt now userID (rateCalls calls bot).2).1 then [now] else []).
Proof.
  intros Hempty HN.
  assert (Hinv : forall id, len (stored bot id) <= maxRequests bot).
  { intros id. unfold stored. rewrite Hempty, lookup_empty. done. }
  split; [by apply rateCalls_bounded|].
  destruct (checkRateLimitAt_ref now userID (rateCalls calls bot).2)
    as (Hok & Hstored & _ & _).
  cbn zeta in *. rewrite Hstored, Hok, bool_decide_eq_true_2 by done.
  assert (HW : rateWindow (rateCalls calls bot).2 = rateWindow bot).
  { clear. revert bot. induction calls as [|[u t] calls IH]; intros bot; [done|].
    cbn [rateCalls snd]. rewrite IH.
    by destruct (checkRateLimitAt_ref t u bot) as (_ & _ & _ & ?). }
  rewrite HW. unfold refCheckAndRecord. case_bool_decide; cbn [fst snd].
  - by rewrite app_nil_r.
  - done.
Qed.

End RateLimiterProofs.

(** ** Proofs: the access guard *)

Section AccessGuardProofs.

Lemma default_false_lookup (m : gmap Z bool) (id : Z) :
  default false (m !! id) = bool_decide (m !! id = Some true).
Proof. by destruct (m !! id) as [[]|]. Qed.

Lemma isUserAllowed_open (bot : TelegramBot) (message : Message) :
  AllowedUsers bot = ∅ -> isUserAllowed bot message = Returns true.
Proof.
  intros H. unfold isUserAllowed. rewrite H, map_size_empty. done.
Qed.

Lemma isUserAllowed_closed (bot : TelegramBot) (message : Message) :
  AllowedUsers bot <> ∅ ->
  isUserAllowed bot message
  = match Message_From message with
    | Some from => Returns (bool_decide (AllowedUsers bot !! User_ID from = Some true))
    | None =>
        match Message_Chat message with
        | Some chat => Returns (bool_decide (AllowedUsers bot !! Chat_ID chat = Some true))
        | None => Panics
        end
    end.
Proof.
  intros H. unfold isUserAllowed.
  rewrite bool_decide_eq_false_2 by (by rewrite map_size_empty_iff).
  destruct (Message_From message), (Message_Chat message);
    by rewrite ?default_false_lookup.
Qed.

(** The allow-list that [NewTelegramBot] builds holds [true] only, at the
    ids that were parsed: its members are its keys. *)
Lemma parseAllowed_lookup (fields : list (option Z)) :
  forall (m : gmap Z bool) (id : Z),
    parseAllowed fields m !! id
    = if bool_decide (Some id ∈ fields) then Some true else m !! id.
Proof.
  induction fields as [|[k|] fields IH]; intros m id; cbn [parseAllowed].
  - rewrite bool_decide_eq_false_2; [done|]. by intros ?%elem_of_nil.
  - rewrite IH. destruct (decide (Some id ∈ fields)) as [Hin|Hnin].
    + rewrite !bool_decide_eq_true_2; [done| |done]. by right.
    + rewrite (bool_decide_eq_false_2 _ Hnin).
      destruct (decide (k = id)) as [->|Hne].
      * rewrite bool_decide_eq_true_2 by left. by rewrite lookup_insert_eq.
      * rewrite lookup_insert_ne by done. rewrite bool_decide_eq_false_2; [done|].
        intros [E|?]%elem_of_cons; [congruence|done].
  - rewrite IH. destruct (decide (Some id ∈ fields)) as [Hin|Hnin].
    + rewrite !bool_decide_eq_true_2; [done| |done]. by right.
    + rewrite (bool_decide_eq_false_2 _ Hnin). rewrite bool_decide_eq_false_2; [done|].
      intros [E|?]%elem_of_cons; [congruence|done].
Qed.

Lemma NewTelegramBot_allowed (token : gostring) (e : Environ) (id : Z) :
  AllowedUsers (w_bot (NewTelegramBot token e)) !! id
  = match ALLOWED_USER_IDS e with
    | Some fields => if bool_decide (Some id ∈ fields) then Some true else None
    | None => None
    end.
Proof.
  cbn. destruct (ALLOWED_USER_IDS e) as [fields|]; [|done].
  by rewrite parseAllowed_lookup.
Qed.

(** C8. With an empty allow-list [isUserAllowed] is true for every
    message; with a non-empty one it is true exactly when the sender's id
    is a member (a key the map sends to [true]). With the list [{5}],
    sender 5 is allowed and sender 6 is not. *)
Theorem isUserAllowed_spec (bot : TelegramBot) (message : Message) (from : User)
    (chat : option Chat) (text : gostring) :
  (AllowedUsers bot = ∅ -> isUserAllowed bot message = Returns true) /\
  (AllowedUsers bot <> ∅ -> Message_From message = Some from ->
   isUserAllowed bot message
   = Returns (bool_decide (AllowedUsers bot !! User_ID from = Some true))) /\
  isUserAllowed (w_bot (NewTelegramBot exampleToken (environWith (Some [Some 5]) None)))
    (textMessage (Some (userOf 5)) chat text) = Returns true /\
  isUserAllowed (w_bot (NewTelegramBot exampleToken (environWith (Some [Some 5]) None)))
    (textMessage (Some (userOf 6)) chat text) = Returns false.
Proof.
  split; [apply isUserAllowed_open|]. split.
  - intros Hne Hfrom. rewrite isUserAllowed_closed by done. by rewrite Hfrom.
  - split; reflexivity.
Qed.

End AccessGuardProofs.

(** ** Proofs: what the error texts of the Ollama client look like *)

Section ErrorTexts.

Lemma hasPrefix_app (p b : gostring) : hasPrefix (p ++ b) p = true.
Proof.
  induction p as [|c p IH]; [done|]. cbn. by rewrite Ascii.eqb_refl, IH.
Qed.

Lemma containsb_complete (s sub : gostring) :
  contains s sub -> containsb s sub = true.
Proof.
  intros (a & b & ->). induction a as [|c a IH].
  - cbn [app]. destruct (sub ++ b) eqn:E; cbn [containsb]; rewrite <- ?E;
      by rewrite hasPrefix_app.
  - cbn [app containsb]. rewrite IH. apply orb_true_r.
Qed.

Lemma contains_prefix (s p e : gostring) : contains s (p ++ e) -> contains s p.
Proof.
  intros (a & b & ->). exists a, (e ++ b). by rewrite <- app_assoc.
Qed.

Lemma not_contains_prefix (s p e : gostring) :
  containsb s p = false -> ~ contains s (p ++ e).
Proof.
  intros Hb Hc%contains_prefix%containsb_complete. congruence.
Qed.

(** No error of [SendPrompt] occurs in a text that holds none of the eight
    openings of its messages. *)
Lemma OllamaResult_error_absent (s : gostring) (x : exchange) (err : gostring) :
  forallb (fun p => negb (containsb s (str p)))
    ["ошибка сериализации запроса: "; "ошибка создания HTTP запроса: ";
     "ошибка выполнения HTTP запроса: "; "Ollama API вернул статус ";
     "ошибка чтения ответа: "; "ошибка парсинга JSON ответа: ";
     "ошибка от Ollama: "; "ответ от Ollama не завершен"]%string = true ->
  OllamaResult x = inr err -> ~ contains s err.
Proof.
  intros Hall Hx. cbn [forallb] in Hall.
  repeat (apply andb_true_iff in Hall; destruct Hall as [?%negb_true_iff Hall]).
  assert (Hpre : forall (p e : gostring),
             containsb s p = false ->
             @inr gostring gostring (p ++ e) = inr err -> ~ contains s err).
  { intros p e Hp [= <-]. by apply not_contains_prefix. }
  destruct x as [e|e|e|code body|e|e|r]; cbn [OllamaResult] in Hx;
    try (eapply Hpre; [|exact Hx]; done).
  case_bool_decide; [eapply Hpre; [|exact Hx]; done|].
  destruct (Response_Done r); cbn [negb] in Hx; [discriminate|].
  eapply (Hpre _ []); [|rewrite app_nil_r; exact Hx]. done.
Qed.

End ErrorTexts.

(** ** Proofs: the dispatcher *)

Section DispatcherProofs.

Variable ReplaceAll : gostring -> gostring -> gostring -> gostring.
Variable env : Env.

Lemma sends_app (t1 t2 : list event) : sends (t1 ++ t2) = sends t1 ++ sends t2.
Proof.
  induction t1 as [|e t1 IH]; [done|]. destruct e; cbn; by rewrite ?IH.
Qed.

Lemma checkRateLimitAt_watermark (now userID : Z) (bot : TelegramBot) :
  LastUpdate (checkRateLimitAt now userID bot).2 = LastUpdate bot /\
  maxPromptLen (checkRateLimitAt now userID bot).2 = maxPromptLen bot /\
  Token (checkRateLimitAt now userID bot).2 = Token bot.
Proof. unfold checkRateLimitAt. by case_bool_decide. Qed.

(** The sending loop keeps the bot as it is and makes one call of
    [SendMessage] per part, in order; only the part of index 0 can carry
    the marker. *)
Lemma sendParts_later (chatID n : Z) (parts : list gostring) :
  forall (i : Z) (w : World),
    0 < i ->
    w_bot (sendParts ReplaceAll env chatID n i parts w) = w_bot w /\
    sends (w_trace (sendParts ReplaceAll env chatID n i parts w))
    = sends (w_trace w) ++ map (pair chatID) parts.
Proof.
  induction parts as [|part rest IH]; intros i w Hi; cbn [sendParts].
  - by rewrite app_nil_r.
  - cbn zeta.
    match goal with |- context [sendParts _ _ _ _ _ rest ?w0] =>
      destruct (IH (i + 1) w0) as (Hb & Hs); [lia|]; rewrite Hb, Hs; clear Hb Hs
    end.
    rewrite (bool_decide_eq_false_2 (i = 0)) by lia. cbn [andb].
    unfold SendMessage, logPrintf, Sleep, emit. cbn [fst snd].
    destruct (env_send env (w_trace w) chatID part);
      case_bool_decide; cbn [w_bot w_trace];
      rewrite ?sends_app; cbn [sends map]; by rewrite ?app_nil_r, <- ?app_assoc.
Qed.

Lemma sendParts_first (chatID : Z) (parts : list gostring) (w : World) :
  w_bot (sendParts ReplaceAll env chatID (len parts) 0 parts w) = w_bot w /\
  sends (w_trace (sendParts ReplaceAll env chatID (len parts) 0 parts w))
  = sends (w_trace w) ++ map (pair chatID) (marked parts).
Proof.
  destruct parts as [|part rest]; cbn [sendParts].
  - by rewrite app_nil_r.
  - cbn zeta.
    match goal with |- context [sendParts _ _ _ _ _ rest ?w0] =>
      destruct (sendParts_later chatID (len (part :: rest)) rest (0 + 1) w0)
        as (Hb & Hs); [lia|]; rewrite Hb, Hs; clear Hb Hs
    end.
    rewrite (bool_decide_eq_true_2 (0 = 0)) by done. cbn [andb].
    assert (Hm : (if bool_decide (len (part :: rest) > 1)
                  then part ++ continuationMarker else part) :: rest
                 = marked (part :: rest)).
    { unfold marked. destruct rest; [rewrite bool_decide_eq_false_2|
                                     rewrite bool_decide_eq_true_2];
        unfold len; cbn [length]; done || lia. }
    rewrite <- Hm. clear Hm.
    unfold SendMessage, logPrintf, Sleep, emit. cbn [fst snd].
    destruct (env_send env (w_trace w) chatID _);
      case_bool_decide; cbn [w_bot w_trace];
      rewrite ?sends_app; cbn [sends map]; by rewrite ?app_nil_r, <- ?app_assoc.
Qed.

(** What [handleTextMessage] does, case by case. It always returns and
    never touches the watermark. *)
Lemma handleTextMessage_cases (chatID : Z) (text : gostring) (w : World) :
  exists w' : World,
    handleTextMessage ReplaceAll env chatID text w = Returns w' /\
    LastUpdate (w_bot w') = LastUpdate (w_bot w) /\
    if negb (checkRateLimitAt (env_now env (w_trace w)) chatID (w_bot w)).1 then
      w_trace w' = w_trace w ++ [EvSend chatID msgRateLimited]
    else if bool_decide (len text > maxPromptLen (w_bot w)) then
      w_trace w' = w_trace w ++ [EvSend chatID (msgTooLong (maxPromptLen (w_bot w)))]
    else
      match OllamaResult (env_ollama env (w_trace w ++ [EvSend chatID msgProcessing]) text) with
      | inr err =>
          let t := w_trace w ++
                   [EvSend chatID msgProcessing; EvPrompt text;
                    EvLog (str "Ошибка от Ollama для chat %d: %v")
                          [AInt chatID; AStr err]] in
          w_trace w'
          = t ++ EvSend chatID msgFailure ::
              match env_send env t chatID msgFailure with
              | Some sendErr =>
                  [EvLog (str "Ошибка отправки сообщения об ошибке: %v")
                         [AStr (ReplaceAll sendErr (Token (w_bot w)) (str "[REDACTED]"))]]
              | None => []
              end
      | inl response =>
          exists parts : list gostring,
            Segmenter.SplitMessage (S (length response)) response 4000
            = Returns parts /\
            sends (w_trace w')
            = sends (w_trace w)
              ++ (chatID, msgProcessing) :: map (pair chatID) (marked parts)
      end.
Proof.
  unfold handleTextMessage, checkRateLimit. cbn zeta. cbn [fst snd].
  destruct (checkRateLimitAt_watermark (env_now env (w_trace w)) chatID (w_bot w))
    as (Hw & Hp & Htok).
  destruct (checkRateLimitAt (env_now env (w_trace w)) chatID (w_bot w)) as [ok bot'].
  cbn [fst snd] in *. unfold with_bot. cbn [w_bot w_trace].
  destruct ok; cbn [negb].
  2:{ eexists. split; [reflexivity|]. split; done. }
  rewrite Hp. case_bool_decide.
  { eexists. split; [reflexivity|]. split; done. }
  unfold SendPrompt, SendMessage, logPrintf, sanitizeError, emit.
  cbn [fst snd w_bot w_trace].
  destruct (OllamaResult _) as [response|err].
  - destruct (SplitMessage_spec response 4000 ltac:(lia)) as (parts & Hrun & _).
    specialize (Hrun 1%nat). rewrite Nat.add_1_r in Hrun.
    rewrite Hrun. cbn.
    match goal with |- context [sendParts _ _ _ _ _ parts ?w0] =>
      destruct (sendParts_first chatID parts w0) as (Hb & Hs)
    end.
    eexists. split; [reflexivity|]. rewrite Hb, Hs. cbn [w_bot w_trace].
    split; [done|]. exists parts. split; [done|].
    rewrite !sends_app. cbn [sends]. by rewrite app_nil_r, <- app_assoc.
  - eexists. split; [reflexivity|].
    rewrite <- !app_assoc. cbn [app]. rewrite Htok.
    destruct (env_send env _ chatID msgFailure); cbn [w_bot w_trace];
      (split; [done|]); by rewrite <- ?app_assoc.
Qed.

(** C4. When the backend fails during freeform handling, what is sent to
    the chat is the acknowledgment and then the fixed text [msgFailure],
    whatever the error; the error of [SendPrompt] occurs in neither of
    them, and it is written to the log in full. Nothing else is sent. *)
Theorem backend_failure_is_generic (chatID : Z) (text : gostring) (w : World)
    (err : gostring) :
  (checkRateLimitAt (env_now env (w_trace w)) chatID (w_bot w)).1 = true ->
  len text <= maxPromptLen (w_bot w) ->
  OllamaResult (env_ollama env (w_trace w ++ [EvSend chatID msgProcessing]) text)
  = inr err ->
  exists (w' : World) (logs : list event),
    handleTextMessage ReplaceAll env chatID text w = Returns w' /\
    w_trace w'
    = w_trace w ++
      [EvSend chatID msgProcessing; EvPrompt text;
       EvLog (str "Ошибка от Ollama для chat %d: %v") [AInt chatID; AStr err];
       EvSend chatID msgFailure] ++ logs /\
    sends logs = [] /\
    sends (w_trace w')
    = sends (w_trace w) ++ [(chatID, msgProcessing); (chatID, msgFailure)] /\
    ~ contains msgProcessing err /\ ~ contains msgFailure err.
Proof.
  intros Hok Hlen Herr.
  destruct (handleTextMessage_cases chatID text w) as (w' & Hrun & _ & Hcase).
  rewrite Hok, Herr in Hcase. cbn [negb] in Hcase.
  rewrite bool_decide_eq_false_2 in Hcase by lia. cbn zeta in Hcase.
  exists w'.
  exists (match env_send env
                  (w_trace w ++
                   [EvSend chatID msgProcessing; EvPrompt text;
                    EvLog (str "Ошибка от Ollama для chat %d: %v")
                          [AInt chatID; AStr err]]) chatID msgFailure with
          | Some sendErr =>
              [EvLog (str "Ошибка отправки сообщения об ошибке: %v")
                     [AStr (ReplaceAll sendErr (Token (w_bot w)) (str "[REDACTED]"))]]
          | None => []
          end).
  split; [done|]. split; [|split; [|split; [|split]]].
  - rewrite Hcase, <- app_assoc. done.
  - by destruct (env_send env _ chatID msgFailure).
  - rewrite Hcase, !sends_app. cbn [sends].
    destruct (env_send env _ chatID msgFailure); cbn [sends];
      by rewrite <- app_assoc.
  - eapply OllamaResult_error_absent; [|exact Herr]. vm_compute. reflexivity.
  - eapply OllamaResult_error_absent; [|exact Herr]. vm_compute. reflexivity.
Qed.

Lemma handleCommand_returns (chatID : Z) (command : gostring) (w : World) :
  exists w' : World,
    handleCommand ReplaceAll env chatID command w = Returns w' /\
    LastUpdate (w_bot w') = LastUpdate (w_bot w).
Proof.
  unfold handleCommand, sendOrLog, SendMessage, logPrintf, emit. cbn [fst snd].
  repeat case_bool_decide.
  - eexists. split; [reflexivity|]. by destruct (env_send env _ chatID msgStart).
  - eexists. split; [reflexivity|]. by destruct (env_send env _ chatID msgHelp).
  - destruct (handleTextMessage_cases chatID command w) as (w' & Hrun & Hw & _).
    by exists w'.
Qed.

(** Past the access guard a message is routed by its text. *)
Lemma HandleMessage_allowed (message : Message) (chat : Chat) (w : World) :
  Message_Chat message = Some chat ->
  isUserAllowed (w_bot w) message = Returns true ->
  HandleMessage ReplaceAll env (Some message) w
  = if isCommand (Message_Text message)
    then handleCommand ReplaceAll env (Chat_ID chat) (Message_Text message) w
    else if bool_decide (Message_Text message <> [])
    then handleTextMessage ReplaceAll env (Chat_ID chat) (Message_Text message) w
    else Returns w.
Proof. intros Hc Ha. unfold HandleMessage. rewrite Hc, Ha. done. Qed.

(** A message stopped by the guard leaves one log line and nothing else. *)
Lemma HandleMessage_denied (message : Message) (chat : Chat) (w : World) :
  Message_Chat message = Some chat ->
  isUserAllowed (w_bot w) message = Returns false ->
  HandleMessage ReplaceAll env (Some message) w
  = Returns (logPrintf
      (str "Отклонён запрос от неавторизованного пользователя (chat_id: %d)")
      [AInt (Chat_ID chat)] w).
Proof. intros Hc Ha. unfold HandleMessage. rewrite Hc, Ha. done. Qed.

Lemma isUserAllowed_returns (bot : TelegramBot) (message : Message) (chat : Chat) :
  Message_Chat message = Some chat ->
  exists b : bool, isUserAllowed bot message = Returns b.
Proof.
  intros Hc. unfold isUserAllowed. rewrite Hc.
  case_bool_decide; [by eexists|]. destruct (Message_From message); by eexists.
Qed.

(** [HandleMessage] always returns, and the watermark is not its business. *)
Lemma HandleMessage_returns (message : option Message) (w : World) :
  exists w' : World,
    HandleMessage ReplaceAll env message w = Returns w' /\
    LastUpdate (w_bot w') = LastUpdate (w_bot w).
Proof.
  destruct message as [message|]; [|by exists w].
  destruct (Message_Chat message) as [chat|] eqn:Hc.
  2:{ exists w. unfold HandleMessage. by rewrite Hc. }
  destruct (isUserAllowed_returns (w_bot w) message chat Hc) as ([] & Ha).
  - rewrite (HandleMessage_allowed message chat w Hc Ha).
    destruct (isCommand (Message_Text message)).
    + apply handleCommand_returns.
    + case_bool_decide; [|by exists w].
      destruct (handleTextMessage_cases (Chat_ID chat) (Message_Text message) w)
        as (w' & Hrun & Hw & _).
      by exists w'.
  - rewrite (HandleMessage_denied message chat w Hc Ha). by eexists.
Qed.

(** C10. With a non-empty allow-list and a message without sender ([From]
    is nil), the chat id decides: [isUserAllowed] is true exactly when the
    chat id is a member, the message is then routed to the command or text
    handler, and otherwise it is dropped with one log line. *)
Theorem sender_missing_falls_back_to_chat (message : Message) (chat : Chat)
    (w : World) :
  AllowedUsers (w_bot w) <> ∅ ->
  Message_From message = None ->
  Message_Chat message = Some chat ->
  isUserAllowed (w_bot w) message
  = Returns (bool_decide (AllowedUsers (w_bot w) !! Chat_ID chat = Some true)) /\
  HandleMessage ReplaceAll env (Some message) w
  = if bool_decide (AllowedUsers (w_bot w) !! Chat_ID chat = Some true) then
      if isCommand (Message_Text message)
      then handleCommand ReplaceAll env (Chat_ID chat) (Message_Text message) w
      else if bool_decide (Message_Text message <> [])
      then handleTextMessage ReplaceAll env (Chat_ID chat) (Message_Text message) w
      else Returns w
    else
      Returns (logPrintf
        (str "Отклонён запрос от неавторизованного пользователя (chat_id: %d)")
        [AInt (Chat_ID chat)] w).
Proof.
  intros Hne Hfrom Hchat.
  assert (Ha : isUserAllowed (w_bot w) message
               = Returns (bool_decide (AllowedUsers (w_bot w) !! Chat_ID chat = Some true))).
  { rewrite isUserAllowed_closed by done. by rewrite Hfrom, Hchat. }
  split; [done|]. case_bool_decide.
  - by apply HandleMessage_allowed.
  - by apply HandleMessage_denied.
Qed.





End DispatcherProofs.

(** ** Proofs: the intake loop *)

Section IntakeProofs.

Variable ReplaceAll : gostring -> gostring -> gostring -> gostring.
Variable env : Env.

(** Processing a batch always returns; the watermark becomes the largest
    of its old value and the ids of the batch. *)
Lemma processUpdates_spec (updates : list Update) :
  forall w : World,
    exists w' : World,
      processUpdates ReplaceAll env updates w = Returns w' /\
      LastUpdate (w_bot w')
      = foldl Z.max (LastUpdate (w_bot w)) (map Update_UpdateID updates).
Proof.
  induction updates as [|update rest IH]; intros w; [by exists w|].
  cbn [processUpdates map foldl].
  set (w1 := if bool_decide (Update_UpdateID update > LastUpdate (w_bot w))
             then with_bot (set_LastUpdate (Update_UpdateID update)) w else w).
  assert (H1 : LastUpdate (w_bot w1)
               = Z.max (LastUpdate (w_bot w)) (Update_UpdateID update)).
  { unfold w1. case_bool_decide; cbn; lia. }
  assert (exists w2, match Update_Message update with
                     | Some m => HandleMessage ReplaceAll env (Some m) w1
                     | None => Returns w1
                     end = Returns w2 /\
                     LastUpdate (w_bot w2) = LastUpdate (w_bot w1))
    as (w2 & -> & H2).
  { destruct (Update_Message update); [apply HandleMessage_returns|by exists w1]. }
  cbn. destruct (IH w2) as (w' & Hrun & Hw'). exists w'.
  split; [done|]. by rewrite Hw', H2, H1.
Qed.

Lemma foldl_max_le (ids : list Z) :
  forall z : Z, z <= foldl Z.max z ids.
Proof.
  induction ids as [|id ids IH]; intros z; cbn; [lia|].
  specialize (IH (Z.max z id)). lia.
Qed.

(** In the range of [int64], below its maximum, [LastUpdate+1] does not
    wrap. *)
Lemma wrap64_succ (z : Z) :
  - 2 ^ 63 <= z < 2 ^ 63 - 1 -> wrap64 (z + 1) = z + 1.
Proof.
  intros H. unfold wrap64. rewrite Z.mod_small; lia.
Qed.

(** C5. The watermark never decreases while a batch is processed, one
    event or many: after the batch it is the largest of its previous value
    and the ids of the batch, and the fetch that follows asks for the
    offset [LastUpdate+1]. After the ids 3, 1, 4 from a watermark of 0 it
    is 4, and the next offset is 5. *)
Theorem watermark_is_max_seen (updates : list Update) (w : World)
    (m1 m2 m3 : option Message) :
  (exists w' : World,
     processUpdates ReplaceAll env updates w = Returns w' /\
     LastUpdate (w_bot w) <= LastUpdate (w_bot w') /\
     LastUpdate (w_bot w')
     = foldl Z.max (LastUpdate (w_bot w)) (map Update_UpdateID updates) /\
     GetUpdates env w'
     = (env_fetch env (w_trace w') (wrap64 (LastUpdate (w_bot w') + 1)),
        emit (EvFetch (wrap64 (LastUpdate (w_bot w') + 1)) 30) w')) /\
  (exists w' : World,
     processUpdates ReplaceAll env
       [ {| Update_UpdateID := 3; Update_Message := m1 |};
         {| Update_UpdateID := 1; Update_Message := m2 |};
         {| Update_UpdateID := 4; Update_Message := m3 |} ]
       (with_bot (set_LastUpdate 0) w) = Returns w' /\
     LastUpdate (w_bot w') = 4 /\
     GetUpdates env w' = (env_fetch env (w_trace w') 5, emit (EvFetch 5 30) w')).
Proof.
  split.
  - destruct (processUpdates_spec updates w) as (w' & Hrun & Hw').
    exists w'. split; [done|]. split; [|split; [done|reflexivity]].
    rewrite Hw'. apply foldl_max_le.
  - match goal with |- context [processUpdates _ _ ?us ?w0] =>
      destruct (processUpdates_spec us w0) as (w' & Hrun & Hw')
    end.
    exists w'. split; [done|]. cbn in Hw'. split; [done|].
    unfold GetUpdates. rewrite Hw'. reflexivity.
Qed.

(** An iteration that fetches a batch processes it and goes on polling. *)
Lemma intakeIteration_batch (w : World) (updates : list Update) :
  env_cancelled env (w_trace w) = false ->
  env_fetch env (w_trace w) (wrap64 (LastUpdate (w_bot w) + 1)) = inl updates ->
  exists w' : World,
    intakeIteration ReplaceAll env w = Returns (Polling, w') /\
    processUpdates ReplaceAll env updates
      (emit (EvFetch (wrap64 (LastUpdate (w_bot w) + 1)) 30) w) = Returns w' /\
    LastUpdate (w_bot w')
    = foldl Z.max (LastUpdate (w_bot w)) (map Update_UpdateID updates).
Proof.
  intros Hc Hf. unfold intakeIteration, GetUpdates. rewrite Hc. cbn [fst snd].
  rewrite Hf.
  destruct (processUpdates_spec updates
              (emit (EvFetch (wrap64 (LastUpdate (w_bot w) + 1)) 30) w))
    as (w' & Hrun & Hw').
  exists w'. rewrite Hrun. done.
Qed.

(** C6. When a fetch fails, the iteration logs the error, sleeps 5
    seconds, leaves the bot (and so the watermark) as it was, and the loop
    goes on with its next iteration. *)
Theorem fetch_error_backs_off (w : World) (err : gostring) (n : nat) :
  env_cancelled env (w_trace w) = false ->
  env_fetch env (w_trace w) (wrap64 (LastUpdate (w_bot w) + 1)) = inr err ->
  intakeIteration ReplaceAll env w
  = Returns (Polling,
      {| w_bot := w_bot w;
         w_trace := w_trace w ++
           [EvFetch (wrap64 (LastUpdate (w_bot w) + 1)) 30;
            EvLog (str "Ошибка получения обновлений: %v") [AStr err];
            EvSleep (5 * Second)] |}) /\
  intakeLoop ReplaceAll env (S n) w
  = intakeLoop ReplaceAll env n
      {| w_bot := w_bot w;
         w_trace := w_trace w ++
           [EvFetch (wrap64 (LastUpdate (w_bot w) + 1)) 30;
            EvLog (str "Ошибка получения обновлений: %v") [AStr err];
            EvSleep (5 * Second)] |}.
Proof.
  intros Hc Hf.
  assert (Hit : intakeIteration ReplaceAll env w
                = Returns (Polling,
                    {| w_bot := w_bot w;
                       w_trace := w_trace w ++
                         [EvFetch (wrap64 (LastUpdate (w_bot w) + 1)) 30;
                          EvLog (str "Ошибка получения обновлений: %v") [AStr err];
                          EvSleep (5 * Second)] |})).
  { unfold intakeIteration, GetUpdates. rewrite Hc. cbn [fst snd]. rewrite Hf.
    unfold Sleep, logPrintf, emit. cbn [w_bot w_trace].
    by rewrite <- !app_assoc. }
  split; [done|]. cbn [intakeLoop]. rewrite Hit. done.
Qed.

End IntakeProofs.

(** ** The model at work *)

Section Examples.

Import Segmenter.

Example split_short : SplitMessage 0 (str "short") 100 = Returns [str "short"].
Proof. reflexivity. Qed.

Example split_4500 :
  SplitMessage 1 (repeat "a"%char 4500) 4000
  = Returns [repeat "a"%char 4000; repeat "a"%char 500].
Proof. vm_compute. reflexivity. Qed.

(** A newline in the last 100 bytes is preferred to a space, and the
    blanks after the cut are dropped. *)
Example split_at_newline :
  SplitMessage 3 (str "one two
  three four") 9
  = Returns [str "one two
"; str "three "; str "four"].
Proof. vm_compute. reflexivity. Qed.

Example split_v1_runs_on (fuel : nat) :
  SplitMessage_v1 fuel (str "ab") 0 = OutOfFuel.
Proof. apply splitLoop_v1_stuck. Qed.

Example replaceAll_token :
  replaceAll (str "Post https://api.telegram.org/bot123456:SECRET/sendMessage: EOF")
    exampleToken (str "[REDACTED]")
  = str "Post https://api.telegram.org/bot[REDACTED]/sendMessage: EOF".
Proof. vm_compute. reflexivity. Qed.


Lemma rateLimiter_bounded_witness :
  let bot := w_bot (NewTelegramBot exampleToken defaultEnviron) in
  let calls := [(7, 0); (7, 1 * Second); (8, 2 * Second)] in
  rateLimiter bot = ∅ /\ 0 <= maxRequests bot /\
  (forall id, len (stored (rateCalls calls bot).2 id) <= maxRequests bot) /\
  stored (checkRateLimitAt (3 * Second) 7 (rateCalls calls bot).2).2 7
  = filter (fun t => ~ t <= 3 * Second - rateWindow bot)
      (stored (rateCalls calls bot).2 7)
    ++ (if (checkRateLimitAt (3 * Second) 7 (rateCalls calls bot).2).1
        then [3 * Second] else []).
Proof.
  cbn zeta.
  assert (H1 : rateLimiter (w_bot (NewTelegramBot exampleToken defaultEnviron)) = ∅)
    by reflexivity.
  assert (H2 : 0 <= maxRequests (w_bot (NewTelegramBot exampleToken defaultEnviron)))
    by (vm_compute; discriminate).
  split; [exact H1|]. split; [exact H2|].
  exact (rateLimiter_bounded [(7, 0); (7, 1 * Second); (8, 2 * Second)]
           (w_bot (NewTelegramBot exampleToken defaultEnviron)) (3 * Second) 7 H1 H2).
Defined.

Lemma isUserAllowed_spec_witness :
  let bot := w_bot (NewTelegramBot exampleToken (environWith (Some [Some 5]) None)) in
  let message := textMessage (Some (userOf 6)) (Some (privateChat 6)) (str "hi") in
  AllowedUsers bot <> ∅ /\ Message_From message = Some (userOf 6) /\
  isUserAllowed bot message
  = Returns (bool_decide (AllowedUsers bot !! User_ID (userOf 6) = Some true)) /\
  isUserAllowed bot message = Returns false.
Proof.
  cbn zeta.
  assert (H1 : AllowedUsers (w_bot (NewTelegramBot exampleToken
                 (environWith (Some [Some 5]) None))) <> ∅).
  { intros E. apply (f_equal (fun m : gmap Z bool => m !! 5)) in E.
    vm_compute in E. discriminate E. }
  split; [exact H1|]. split; [reflexivity|]. split; [|reflexivity].
  exact (proj1 (proj2 (isUserAllowed_spec
           (w_bot (NewTelegramBot exampleToken (environWith (Some [Some 5]) None)))
           (textMessage (Some (userOf 6)) (Some (privateChat 6)) (str "hi"))
           (userOf 6) None [])) H1 eq_refl).
Defined.

Lemma sender_missing_falls_back_to_chat_witness :
  let w := NewTelegramBot exampleToken (environWith (Some [Some 5]) None) in
  let env := steadyEnv (generated (str "hello")) (inl []) in
  let message := textMessage None (Some (privateChat 5)) (str "hi") in
  AllowedUsers (w_bot w) <> ∅ /\
  isUserAllowed (w_bot w) message = Returns true /\
  HandleMessage replaceAll env (Some message) w
  = handleTextMessage replaceAll env 5 (str "hi") w /\
  sendsOf (HandleMessage replaceAll env (Some message) w)
  = Some [(5, msgProcessing); (5, str "hello")] /\
  sendsOf (HandleMessage replaceAll env
             (Some (textMessage None (Some (privateChat 6)) (str "hi"))) w)
  = Some [].
Proof.
  cbn zeta.
  assert (H1 : AllowedUsers (w_bot (NewTelegramBot exampleToken
                 (environWith (Some [Some 5]) None))) <> ∅).
  { intros E. apply (f_equal (fun m : gmap Z bool => m !! 5)) in E.
    vm_compute in E. discriminate E. }
  split; [exact H1|].
  pose proof (sender_missing_falls_back_to_chat replaceAll
                (steadyEnv (generated (str "hello")) (inl []))
                (textMessage None (Some (privateChat 5)) (str "hi"))
                (privateChat 5)
                (NewTelegramBot exampleToken (environWith (Some [Some 5]) None))
                H1 eq_refl eq_refl) as [Ha Hh].
  split; [exact Ha|]. split; [exact Hh|].
  split; vm_compute; reflexivity.
Defined.


Lemma backend_failure_is_generic_witness :
  let env := steadyEnv (DoFails (str "dial tcp 127.0.0.1:11434: connect: connection refused"))
               (inl []) in
  let w := NewTelegramBot exampleToken defaultEnviron in
  let err := str "ошибка выполнения HTTP запроса: dial tcp 127.0.0.1:11434: connect: connection refused" in
  (checkRateLimitAt (env_now env (w_trace w)) 7 (w_bot w)).1 = true /\
  len (str "hi") <= maxPromptLen (w_bot w) /\
  exists (w' : World) (logs : list event),
    handleTextMessage replaceAll env 7 (str "hi") w = Returns w' /\
    w_trace w'
    = w_trace w ++
      [EvSend 7 msgProcessing; EvPrompt (str "hi");
       EvLog (str "Ошибка от Ollama для chat %d: %v") [AInt 7; AStr err];
       EvSend 7 msgFailure] ++ logs /\
    sends logs = [] /\
    sends (w_trace w') = sends (w_trace w) ++ [(7, msgProcessing); (7, msgFailure)] /\
    ~ contains msgProcessing err /\ ~ contains msgFailure err.
Proof.
  cbn zeta.
  assert (H2 : len (str "hi")
               <= maxPromptLen (w_bot (NewTelegramBot exampleToken defaultEnviron)))
    by (vm_compute; discriminate).
  split; [reflexivity|]. split; [exact H2|].
  exact (backend_failure_is_generic replaceAll
           (steadyEnv (DoFails (str "dial tcp 127.0.0.1:11434: connect: connection refused"))
              (inl []))
           7 (str "hi") (NewTelegramBot exampleToken defaultEnviron)
           (str "ошибка выполнения HTTP запроса: dial tcp 127.0.0.1:11434: connect: connection refused")
           eq_refl H2 eq_refl).
Defined.

Lemma fetch_error_backs_off_witness :
  let env := steadyEnv (generated (str "hello")) (inr (str "Telegram API вернул статус 502: Bad Gateway")) in
  let w := NewTelegramBot exampleToken defaultEnviron in
  let w' :=
    {| w_bot := w_bot w;
       w_trace := w_trace w ++
         [EvFetch 1 30;
          EvLog (str "Ошибка получения обновлений: %v")
                [AStr (str "Telegram API вернул статус 502: Bad Gateway")];
          EvSleep 5000000000] |} in
  intakeIteration replaceAll env w = Returns (Polling, w') /\
  intakeLoop replaceAll env 3 w = intakeLoop replaceAll env 2 w'.
Proof.
  cbn zeta.
  exact (fetch_error_backs_off replaceAll
           (steadyEnv (generated (str "hello"))
              (inr (str "Telegram API вернул статус 502: Bad Gateway")))
           (NewTelegramBot exampleToken defaultEnviron)
           (str "Telegram API вернул статус 502: Bad Gateway") 2 eq_refl eq_refl).
Defined.

End Examples.

(** ** More on the segmenter *)

Section SegmenterShape.

Import Segmenter.

(** The cut of an iteration is a hard cut at [maxLen] or falls right after
    a newline or a space. *)
Lemma findSplit_cut (current : gostring) (maxLen splitPos : Z) :
  0 < maxLen < len current ->
  findSplit current maxLen = Returns splitPos ->
  splitPos = maxLen \/
  exists b, blank b /\ current !! Z.to_nat (splitPos - 1) = Some b.
Proof.
  intros Hm. unfold findSplit.
  destruct (scanBack_spec newline current (maxLen - 100) (Z.to_nat maxLen))
    as (nl & -> & Hnl); [unfold len in Hm; lia|].
  cbn.
  set (sp1 := match nl with Some i => i | None => maxLen end).
  assert (Hlen : bool_decide (len current > maxLen) = true)
    by (apply bool_decide_eq_true_2; lia).
  destruct (decide (sp1 = maxLen)) as [Heq|Hne].
  - rewrite (bool_decide_eq_true_2 _ Heq).
    destruct (scanBack_spec space current (maxLen - 50) (Z.to_nat maxLen))
      as (sp & -> & Hsp); [unfold len in Hm; lia|].
    cbn. rewrite Hlen, andb_true_r. clear Hlen. intros [= <-].
    destruct sp as [p|].
    + case_bool_decide; [by left|]. right. exists space.
      split; [by left|]. by destruct Hsp as (_ & _ & ?).
    + left. by case_bool_decide.
  - rewrite (bool_decide_eq_false_2 _ Hne). cbn.
    rewrite (bool_decide_eq_false_2 _ Hne). cbn. intros [= <-].
    right. exists newline. split; [by right|].
    unfold sp1 in *. destruct nl as [q|]; [|done]. by destruct Hnl as (_ & _ & ?).
Qed.

Lemma skipLeading_not_blank (rest : gostring) : ~ startsBlank (skipLeading rest).
Proof.
  induction rest as [|b rest IH]; cbn [skipLeading].
  - by intros (b & [=] & _).
  - destruct (Ascii.eqb b space || Ascii.eqb b newline) eqn:E; [done|].
    intros (b' & [= <-] & Hb). apply orb_false_iff in E. destruct E as [E1 E2].
    destruct Hb as [->| ->]; by rewrite Ascii.eqb_refl in *.
Qed.

Lemma head_take_pos (s : gostring) (n : nat) :
  (0 < n)%nat -> head (take n s) = head s.
Proof. destruct n; [lia|]. by destruct s. Qed.

Lemma last_take (s : gostring) (n : nat) :
  (0 < n <= length s)%nat -> last (take n s) = s !! pred n.
Proof.
  intros Hn. rewrite last_lookup, length_take, Nat.min_l by lia.
  apply lookup_take_lt. lia.
Qed.

(** The chunks the loop adds, seen one by one: each of them but the
    first begins with a byte that is not a blank (the first too when
    [current] does), and each of them but the last is [maxLen] bytes long
    or ends with a blank. *)
Lemma splitLoop_shape (maxLen : Z) (n : nat) :
  0 < maxLen ->
  forall current : gostring, (length current <= n)%nat ->
  exists chunks : list gostring,
    (forall parts k, splitLoop (n + k) maxLen parts current = Returns (parts ++ chunks)) /\
    Forall (fun c => ~ startsBlank c) (tail chunks) /\
    (~ startsBlank current -> Forall (fun c => ~ startsBlank c) chunks) /\
    (forall i c, chunks !! i = Some c -> (S i < length chunks)%nat ->
                 len c = maxLen \/ endsBlank c).
Proof.
  intros Hpos. induction n as [|n IH]; intros current Hn.
  - destruct current; [|cbn in Hn; lia].
    exists []. split; [|split; [|split]].
    + intros parts k. rewrite splitLoop_exit by (unfold len; cbn; lia).
      cbn. by rewrite app_nil_r.
    + constructor.
    + constructor.
    + intros i c Hi. by rewrite lookup_nil in Hi.
  - destruct (decide (len current <= maxLen)) as [Hle|Hgt].
    + exists (if bool_decide (len current > 0) then [current] else []).
      split; [|split; [|split]].
      * intros parts k. rewrite splitLoop_exit by done.
        case_bool_decide; [done|by rewrite app_nil_r].
      * case_bool_decide; constructor.
      * intros Hh. case_bool_decide; repeat constructor. done.
      * intros i c Hi Hlt. case_bool_decide; cbn in Hlt; lia.
    + destruct (findSplit_spec current maxLen ltac:(lia)) as (sp & Hfs & Hsp & Hlo).
      pose proof (findSplit_cut current maxLen sp ltac:(lia) Hfs) as Hcut.
      assert (Hstep : forall fuel parts,
                 splitLoop (S fuel) maxLen parts current
                 = splitLoop fuel maxLen (parts ++ [take (Z.to_nat sp) current])
                     (skipLeading (drop (Z.to_nat sp) current))).
      { intros fuel parts. rewrite splitLoop_S.
        rewrite bool_decide_eq_true_2 by lia. rewrite Hfs. cbn.
        unfold slice_to, slice_from. rewrite bool_decide_eq_true_2 by lia.
        cbn. done. }
      set (part := take (Z.to_nat sp) current) in *.
      set (rest := drop (Z.to_nat sp) current) in *.
      pose proof (skipLeading_length rest) as Hsk.
      assert (Hlr : (length rest <= n)%nat).
      { unfold rest, len in *. rewrite length_drop. lia. }
      destruct (IH (skipLeading rest)) as (chunks & Hrun & _ & Hhead & Hends); [lia|].
      specialize (Hhead (skipLeading_not_blank rest)).
      exists (part :: chunks). split; [|split; [|split]].
      * intros parts k. replace (S n + k)%nat with (S (n + k)) by lia.
        rewrite Hstep, Hrun, <- app_assoc. done.
      * done.
      * intros Hh. constructor; [|done]. unfold startsBlank, part.
        rewrite head_take_pos by lia. done.
      * intros [|i] c Hi Hlt.
        -- injection Hi as <-. destruct Hcut as [->|(b & Hb & Hl)].
           ++ left. unfold part, len in *. rewrite length_take. lia.
           ++ right. exists b. split; [|done]. unfold part.
              rewrite last_take by (unfold len in *; lia).
              replace (pred (Z.to_nat sp)) with (Z.to_nat (sp - 1)) by lia. done.
        -- apply (Hends i c Hi). cbn in Hlt. lia.
Qed.

(** Which of its two ways [SplitMessage] takes. *)
Lemma SplitMessage_run (text : gostring) (maxLen : Z) :
  (len text <= maxLen /\
   forall fuel, SplitMessage fuel text maxLen = Returns [text]) \/
  (maxLen < len text /\
   forall fuel, SplitMessage fuel text maxLen
                = splitLoop fuel (effectiveMaxLen maxLen) [] text).
Proof.
  unfold SplitMessage, effectiveMaxLen.
  destruct (decide (len text <= maxLen)) as [Hle|Hgt]; [left|right].
  - split; [done|]. intros fuel. by rewrite bool_decide_eq_true_2.
  - split; [lia|]. intros fuel. by rewrite bool_decide_eq_false_2.
Qed.

Lemma effectiveMaxLen_pos (maxLen : Z) : 0 < effectiveMaxLen maxLen.
Proof. unfold effectiveMaxLen. case_bool_decide; lia. Qed.

Lemma effectiveMaxLen_ge (maxLen : Z) : maxLen <= effectiveMaxLen maxLen.
Proof. unfold effectiveMaxLen. case_bool_decide; lia. Qed.

(** X1. For every text and every [maxLen], no chunk is longer than the
    [maxLen] in force: [maxLen] itself when it is positive, 4000
    otherwise. *)
Theorem SplitMessage_chunk_bound (text : gostring) (maxLen : Z) :
  exists parts : list gostring,
    (forall k, SplitMessage (length text + k) text maxLen = Returns parts) /\
    Forall (fun c => len c <= effectiveMaxLen maxLen) parts.
Proof.
  destruct (SplitMessage_run text maxLen) as [[Hle Hrun]|[Hgt Hrun]].
  - exists [text]. split; [done|]. repeat constructor.
    pose proof (effectiveMaxLen_ge maxLen). lia.
  - destruct (splitLoop_spec _ (length text) (effectiveMaxLen_pos maxLen) text)
      as (chunks & Hloop & _ & Hlen & _); [done|].
    exists chunks. split; [intros k; by rewrite Hrun, Hloop|].
    eapply Forall_impl; [exact Hlen|]. cbn. lia.
Qed.

(** X2. A text that is not empty gives at least one chunk and no empty
    chunk. The empty text gives the one empty chunk when [maxLen >= 0] and
    no chunk at all when [maxLen < 0]. *)
Theorem SplitMessage_no_empty_chunk (text : gostring) (maxLen : Z) (fuel : nat) :
  (text <> [] ->
   exists parts : list gostring,
     (forall k, SplitMessage (length text + k) text maxLen = Returns parts) /\
     parts <> [] /\ Forall (fun c => c <> []) parts) /\
  SplitMessage fuel [] maxLen
  = Returns (if bool_decide (0 <= maxLen) then [[]] else []).
Proof.
  split.
  - intros Hne. destruct (SplitMessage_run text maxLen) as [[Hle Hrun]|[Hgt Hrun]].
    + exists [text]. split; [done|]. split; [done|]. by repeat constructor.
    + destruct (splitLoop_spec _ (length text) (effectiveMaxLen_pos maxLen) text)
        as (chunks & Hloop & _ & Hlen & Hnn & _); [done|].
      exists chunks. split; [intros k; by rewrite Hrun, Hloop|].
      split; [by apply Hnn|].
      eapply Forall_impl; [exact Hlen|]. cbn. intros c Hc ->.
      unfold len in Hc. cbn in Hc. lia.
  - destruct (SplitMessage_run [] maxLen) as [[Hle Hrun]|[Hgt Hrun]].
    + rewrite Hrun. unfold len in Hle. cbn in Hle. by rewrite bool_decide_eq_true_2.
    + rewrite Hrun. unfold len in Hgt. cbn in Hgt.
      rewrite bool_decide_eq_false_2 by lia.
      rewrite splitLoop_exit
        by (unfold len; cbn; pose proof (effectiveMaxLen_pos maxLen); lia).
      done.
Qed.

Lemma SplitMessage_no_empty_chunk_witness :
  str "ab   " <> [] /\
  exists parts : list gostring,
    (forall k, SplitMessage (length (str "ab   ") + k) (str "ab   ") 2
               = Returns parts) /\
    parts <> [] /\ Forall (fun c => c <> []) parts.
Proof.
  assert (H : str "ab   " <> []) by discriminate.
  split; [exact H|].
  exact (proj1 (SplitMessage_no_empty_chunk (str "ab   ") 2 0) H).
Defined.

(** X3. Every chunk after the first begins with a byte that is neither a
    space nor a newline: the blanks that follow a cut are not sent. *)
Theorem SplitMessage_later_chunks_start_clean (text : gostring) (maxLen : Z) :
  exists parts : list gostring,
    (forall k, SplitMessage (length text + k) text maxLen = Returns parts) /\
    Forall (fun c => ~ startsBlank c) (tail parts).
Proof.
  destruct (SplitMessage_run text maxLen) as [[Hle Hrun]|[Hgt Hrun]].
  - exists [text]. split; [done|]. constructor.
  - destruct (splitLoop_shape _ (length text) (effectiveMaxLen_pos maxLen) text)
      as (chunks & Hloop & Htail & _); [done|].
    exists chunks. split; [intros k; by rewrite Hrun, Hloop|done].
Qed.

(** X4. Every chunk but the last is exactly as long as the [maxLen] in
    force (a hard cut) or ends with a space or a newline (a cut at a
    break). *)
Theorem SplitMessage_cuts_at_breaks (text : gostring) (maxLen : Z) :
  exists parts : list gostring,
    (forall k, SplitMessage (length text + k) text maxLen = Returns parts) /\
    forall (i : nat) (c : gostring),
      parts !! i = Some c -> (S i < length parts)%nat ->
      len c = effectiveMaxLen maxLen \/ endsBlank c.
Proof.
  destruct (SplitMessage_run text maxLen) as [[Hle Hrun]|[Hgt Hrun]].
  - exists [text]. split; [done|]. intros i c _ Hlt. cbn in Hlt. lia.
  - destruct (splitLoop_shape _ (length text) (effectiveMaxLen_pos maxLen) text)
      as (chunks & Hloop & _ & _ & Hcut); [done|].
    exists chunks. split; [intros k; by rewrite Hrun, Hloop|done].
Qed.

Lemma interleave_no_blank (chunks : list gostring) :
  forall (ws : list gostring) (text : gostring),
    Forall (fun b => ~ blank b) text ->
    Forall (Forall blank) ws ->
    text = interleave chunks ws ->
    text = concat chunks.
Proof.
  induction chunks as [|c cs IH]; intros ws text Hnb Hws ->; [done|].
  destruct ws as [|w ws]; cbn [interleave concat] in *.
  - f_equal. apply (IH []); [|constructor|done].
    by apply Forall_app in Hnb as [_ ?].
  - apply Forall_app in Hnb as [_ Hnb]. apply Forall_app in Hnb as [Hw Hnb].
    apply Forall_cons in Hws as [Hbw Hws].
    assert (w = []) as ->.
    { destruct w as [|b w]; [done|].
      apply Forall_cons in Hw as [Hb _]. apply Forall_cons in Hbw as [Hb' _]. done. }
    cbn [app]. f_equal. by apply (IH ws).
Qed.

(** X5. A text without a space or a newline is split without loss:
    the chunks put end to end are the text. *)
Theorem SplitMessage_lossless_without_blanks (text : gostring) (maxLen : Z) :
  Forall (fun b => ~ blank b) text ->
  exists parts : list gostring,
    (forall k, SplitMessage (length text + k) text maxLen = Returns parts) /\
    concat parts = text.
Proof.
  intros Hnb. destruct (SplitMessage_run text maxLen) as [[Hle Hrun]|[Hgt Hrun]].
  - exists [text]. split; [done|]. cbn. by rewrite app_nil_r.
  - destruct (splitLoop_spec _ (length text) (effectiveMaxLen_pos maxLen) text)
      as (chunks & Hloop & (ws & _ & Hws & Hrec) & _); [done|].
    exists chunks. split; [intros k; by rewrite Hrun, Hloop|].
    symmetry. by apply (interleave_no_blank chunks ws).
Qed.

Lemma SplitMessage_lossless_without_blanks_witness :
  Forall (fun b => ~ blank b) (str "abcdefg") /\
  exists parts : list gostring,
    (forall k, SplitMessage (length (str "abcdefg") + k) (str "abcdefg") 3
               = Returns parts) /\
    concat parts = str "abcdefg".
Proof.
  assert (H : Forall (fun b => ~ blank b) (str "abcdefg")).
  { repeat constructor; intros [E|E]; discriminate E. }
  split; [exact H|].
  exact (SplitMessage_lossless_without_blanks (str "abcdefg") 3 H).
Defined.

(** X6. With [maxLen >= 100] every iteration of the loop consumes more
    than [maxLen - 100] bytes, so a text of [n] bytes gives at most
    [1 + n / (maxLen - 99)] chunks. *)
Theorem SplitMessage_chunk_count (text : gostring) (maxLen : Z) :
  100 <= maxLen ->
  exists parts : list gostring,
    (forall k, SplitMessage (length text + k) text maxLen = Returns parts) /\
    Z.of_nat (length parts) <= 1 + len text / (maxLen - 99).
Proof.
  intros Hm.
  destruct (SplitMessage_spec text maxLen ltac:(lia))
    as (parts & Hrun & _ & _ & _ & Hcount).
  exists parts. split; [done|].
  pose proof (len_nonneg text) as H0.
  pose proof (Z.div_pos (len text) (maxLen - 99) H0 ltac:(lia)) as Hq.
  pose proof (Z.mod_pos_bound (len text) (maxLen - 99) ltac:(lia)) as Hr.
  pose proof (Z.div_mod (len text) (maxLen - 99) ltac:(lia)) as Hdm.
  specialize (Hcount (Z.to_nat (len text / (maxLen - 99)))).
  rewrite Z2Nat.id in Hcount by done.
  assert ((length parts <= S (Z.to_nat (len text / (maxLen - 99))))%nat)
    by (apply Hcount; nia).
  lia.
Qed.

Lemma SplitMessage_chunk_count_witness :
  100 <= 4000 /\
  exists parts : list gostring,
    (forall k, SplitMessage (length longReply + k) longReply 4000 = Returns parts) /\
    Z.of_nat (length parts) <= 1 + len longReply / (4000 - 99).
Proof.
  split; [lia|]. apply (SplitMessage_chunk_count longReply 4000). lia.
Defined.

End SegmenterShape.

(** ** The first version of the segmenter (utils.go, lines 5-42) *)

Section SegmenterV1.

Import Segmenter.

Lemma splitLoop_v1_step (maxLen : Z) (current : gostring) :
  0 < maxLen < len current ->
  exists splitPos, 0 < splitPos <= maxLen /\
    forall fuel parts,
      splitLoop_v1 (S fuel) maxLen parts current
      = splitLoop_v1 fuel maxLen (parts ++ [take (Z.to_nat splitPos) current])
          (drop (Z.to_nat splitPos) current).
Proof.
  intros Hm.
  destruct (scanBack_spec newline current (maxLen - 100) (Z.to_nat maxLen))
    as (nl & Hnl & Hnls); [unfold len in Hm; lia|].
  destruct (scanBack_spec space current (maxLen - 50) (Z.to_nat maxLen))
    as (sp & Hsp & Hsps); [unfold len in Hm; lia|].
  set (sp1 := match nl with Some i => i | None => maxLen end).
  set (sp2 := if bool_decide (sp1 = maxLen)
              then match sp with Some i => i | None => sp1 end else sp1).
  assert (H1 : 0 < sp1 <= maxLen) by (unfold sp1; destruct nl; lia).
  assert (H2 : 0 < sp2 <= maxLen).
  { unfold sp2. case_bool_decide; [|done]. destruct sp; lia. }
  exists sp2. split; [done|]. intros fuel parts.
  cbn [splitLoop_v1]. rewrite bool_decide_eq_true_2 by lia.
  rewrite Hnl. cbn. fold sp1.
  assert ((if bool_decide (sp1 = maxLen)
           then scanBack space current (maxLen - 50) (Z.to_nat maxLen)
           else Returns None)
          = Returns (if bool_decide (sp1 = maxLen) then sp else None)) as ->.
  { by case_bool_decide. }
  cbn.
  assert (match (if bool_decide (sp1 = maxLen) then sp else None) with
          | Some i => i | None => sp1 end = sp2) as ->.
  { unfold sp2. by case_bool_decide. }
  unfold slice_to, slice_from. rewrite bool_decide_eq_true_2 by lia. cbn. done.
Qed.

Lemma splitLoop_v1_exit (fuel : nat) (maxLen : Z) (parts : list gostring)
    (current : gostring) :
  len current <= maxLen ->
  splitLoop_v1 fuel maxLen parts current
  = Returns (if bool_decide (len current > 0) then parts ++ [current] else parts).
Proof.
  intros H. destruct fuel; cbn [splitLoop_v1]; rewrite bool_decide_eq_false_2 by lia; done.
Qed.

Lemma splitLoop_v1_spec (maxLen : Z) (n : nat) :
  0 < maxLen ->
  forall current : gostring, (length current <= n)%nat ->
  exists chunks : list gostring,
    (forall parts k, splitLoop_v1 (n + k) maxLen parts current = Returns (parts ++ chunks)) /\
    concat chunks = current /\
    Forall (fun c => 0 < len c <= maxLen) chunks.
Proof.
  intros Hpos. induction n as [|n IH]; intros current Hn.
  - destruct current; [|cbn in Hn; lia].
    exists []. split; [|done].
    intros parts k. rewrite splitLoop_v1_exit by (unfold len; cbn; lia).
    cbn. by rewrite app_nil_r.
  - destruct (decide (len current <= maxLen)) as [Hle|Hgt].
    + exists (if bool_decide (len current > 0) then [current] else []).
      split; [|split].
      * intros parts k. rewrite splitLoop_v1_exit by done.
        case_bool_decide; [done|by rewrite app_nil_r].
      * case_bool_decide as Hc; cbn; [by rewrite app_nil_r|].
        destruct current; [done|]. unfold len in Hc. cbn in Hc. lia.
      * case_bool_decide; repeat constructor; lia.
    + destruct (splitLoop_v1_step maxLen current) as (sp & Hsp & Hstep); [lia|].
      destruct (IH (drop (Z.to_nat sp) current)) as (chunks & Hrun & Hcat & Hlen).
      { rewrite length_drop. lia. }
      exists (take (Z.to_nat sp) current :: chunks). split; [|split].
      * intros parts k. replace (S n + k)%nat with (S (n + k)) by lia.
        rewrite Hstep, Hrun, <- app_assoc. done.
      * cbn. rewrite Hcat. apply take_drop.
      * constructor; [|done]. unfold len in *. rewrite length_take. lia.
Qed.

(** X7. The first version with a positive [maxLen]: it returns, no chunk
    is longer than [maxLen], and the chunks put end to end are the text,
    blanks included. *)
Theorem SplitMessage_v1_lossless (text : gostring) (maxLen : Z) :
  0 < maxLen ->
  exists parts : list gostring,
    (forall k, SplitMessage_v1 (length text + k) text maxLen = Returns parts) /\
    concat parts = text /\
    Forall (fun c => len c <= maxLen) parts.
Proof.
  intros Hpos. unfold SplitMessage_v1.
  destruct (decide (len text <= maxLen)) as [Hle|Hgt].
  - exists [text]. split; [|split].
    + intros k. by rewrite bool_decide_eq_true_2.
    + cbn. by rewrite app_nil_r.
    + by repeat constructor.
  - destruct (splitLoop_v1_spec maxLen (length text) Hpos text)
      as (chunks & Hrun & Hcat & Hlen); [done|].
    exists chunks. split; [|split; [done|]].
    + intros k. rewrite bool_decide_eq_false_2 by done. apply Hrun.
    + eapply Forall_impl; [exact Hlen|]. cbn. lia.
Qed.

Lemma SplitMessage_v1_lossless_witness :
  0 < 4 /\
  exists parts : list gostring,
    (forall k, SplitMessage_v1 (length (str "ab  cd") + k) (str "ab  cd") 4
               = Returns parts) /\
    concat parts = str "ab  cd" /\
    Forall (fun c => len c <= 4) parts.
Proof.
  split; [lia|]. apply (SplitMessage_v1_lossless (str "ab  cd") 4). lia.
Defined.

(** X8. The first version with a [maxLen] that is not positive: a negative
    [maxLen] makes it panic on the slice [current[:splitPos]], whatever the
    text; with [maxLen = 0] and a text that is not empty its loop never
    ends. *)
Theorem SplitMessage_v1_bad_maxLen (text : gostring) (maxLen : Z) (fuel : nat) :
  (maxLen < 0 -> SplitMessage_v1 (S fuel) text maxLen = Panics) /\
  (text <> [] -> SplitMessage_v1 fuel text 0 = OutOfFuel).
Proof.
  split.
  - intros Hneg. unfold SplitMessage_v1.
    pose proof (len_nonneg text).
    rewrite bool_decide_eq_false_2 by lia.
    cbn [splitLoop_v1]. rewrite bool_decide_eq_true_2 by lia.
    replace (Z.to_nat maxLen) with 0%nat by lia. cbn.
    rewrite bool_decide_eq_true_2 by done. cbn.
    unfold slice_to. rewrite bool_decide_eq_false_2 by lia. done.
  - intros Hne. destruct text as [|b text]; [done|]. unfold SplitMessage_v1.
    rewrite bool_decide_eq_false_2 by (unfold len; cbn; lia).
    apply splitLoop_v1_stuck.
Qed.

Lemma SplitMessage_v1_bad_maxLen_witness :
  -1 < 0 /\ str "ab" <> [] /\
  SplitMessage_v1 1 (str "ab") (-1) = Panics /\
  SplitMessage_v1 7 (str "ab") 0 = OutOfFuel.
Proof.
  assert (H1 : -1 < 0) by lia.
  assert (H2 : str "ab" <> []) by discriminate.
  split; [exact H1|]. split; [exact H2|]. split.
  - exact (proj1 (SplitMessage_v1_bad_maxLen (str "ab") (-1) 0) H1).
  - exact (proj2 (SplitMessage_v1_bad_maxLen (str "ab") (-1) 7) H2).
Defined.

End SegmenterV1.

(** ** More on the rate limiter *)

Section RateLimiterWindow.

(** Pruning at a later time makes pruning at an earlier time redundant. *)
Lemma filter_window_later (W t1 t2 : Z) (l : list Z) :
  t1 <= t2 ->
  filter (fun t => ~ t <= t2 - W) (filter (fun t => ~ t <= t1 - W) l)
  = filter (fun t => ~ t <= t2 - W) l.
Proof.
  intros Ht. rewrite list_filter_filter. apply list_filter_iff. intros t. lia.
Qed.

(** What one call does to the list of its identity and to its answer, in
    terms of the list before. *)
Lemma checkRateLimitAt_stored (now userID : Z) (bot : TelegramBot) :
  let kept := filter (fun t => ~ t <= now - rateWindow bot) (stored bot userID) in
  (checkRateLimitAt now userID bot).1 = negb (bool_decide (len kept >= maxRequests bot)) /\
  stored (checkRateLimitAt now userID bot).2 userID
  = kept ++ (if (checkRateLimitAt now userID bot).1 then [now] else []).
Proof.
  cbn zeta.
  destruct (checkRateLimitAt_ref now userID bot) as (Hok & Hst & _).
  cbn zeta in *. rewrite Hst, Hok.
  rewrite (bool_decide_eq_true_2 (userID = userID)) by done.
  unfold refCheckAndRecord.
  case_bool_decide; cbn [fst snd negb]; split; by rewrite ?app_nil_r.
Qed.

Lemma rateCalls_settings (calls : list (Z * Z)) :
  forall bot : TelegramBot,
    maxRequests (rateCalls calls bot).2 = maxRequests bot /\
    rateWindow (rateCalls calls bot).2 = rateWindow bot.
Proof.
  induction calls as [|[u t] calls IH]; intros bot; [done|].
  cbn [rateCalls snd].
  destruct (checkRateLimitAt_ref t u bot) as (_ & _ & HN & HW). cbn zeta in *.
  destruct (IH (checkRateLimitAt t u bot).2) as [-> ->]. done.
Qed.

(** Along calls in the order of time, the list kept for an identity is
    the accepted times of that identity that are still in the window of
    its last call. *)
Lemma rateCalls_stored_accepted (userID : Z) (calls : list (Z * Z)) :
  forall (bot : TelegramBot) (acc : list Z) (tl t0 tend : Z),
    0 < rateWindow bot ->
    tl <= t0 ->
    stored bot userID = filter (fun t => ~ t <= tl - rateWindow bot) acc ->
    chronological t0 calls tend ->
    exists tl' : Z, tl' <= tend /\
      stored (rateCalls calls bot).2 userID
      = filter (fun t => ~ t <= tl' - rateWindow bot)
          (acc ++ acceptedOf userID calls (rateCalls calls bot).1).
Proof.
  induction calls as [|[u now] calls IH]; intros bot acc tl t0 tend HW Htl Hst Hch.
  - cbn in *. exists tl. split; [lia|]. by rewrite app_nil_r.
  - cbn [chronological] in Hch. destruct Hch as [Hnow Hch].
    cbn [rateCalls fst snd acceptedOf].
    destruct (checkRateLimitAt_ref now u bot) as (_ & Hother & _ & HW').
    cbn zeta in *.
    destruct (decide (u = userID)) as [->|Hne].
    + destruct (checkRateLimitAt_stored now userID bot) as (_ & Hnew).
      cbn zeta in Hnew.
      rewrite bool_decide_eq_true_2 by done. cbn [andb].
      rewrite Hst, filter_window_later in Hnew by lia.
      destruct (IH (checkRateLimitAt now userID bot).2
                  (acc ++ (if (checkRateLimitAt now userID bot).1 then [now] else []))
                  now now tend) as (tl' & Htl' & Hfin).
      * by rewrite HW'.
      * lia.
      * rewrite HW', Hnew, filter_app. f_equal.
        destruct (checkRateLimitAt now userID bot).1; [|done].
        rewrite filter_cons. case_decide; [done|lia].
      * done.
      * exists tl'. split; [done|]. rewrite Hfin, HW'.
        destruct (checkRateLimitAt now userID bot).1; [|by rewrite app_nil_r].
        by rewrite <- app_assoc.
    + rewrite bool_decide_eq_false_2 by done. cbn [andb].
      destruct (IH (checkRateLimitAt now u bot).2 acc tl now tend)
        as (tl' & Htl' & Hfin).
      * by rewrite HW'.
      * lia.
      * rewrite HW', Hother, bool_decide_eq_false_2 by done. done.
      * done.
      * exists tl'. split; [done|]. by rewrite Hfin, HW'.
Qed.

(** X9. The guarantee of the limiter. Start from the empty map and make
    calls in the order of time, for any identities. Then, for each
    identity and at any time [now] that is not before the last call, the
    accepted requests of that identity with a time in [(now - W, now]]
    number at most [maxRequests]. *)
Theorem rateLimiter_window_guarantee (calls : list (Z * Z)) (bot : TelegramBot)
    (userID t0 now : Z) :
  rateLimiter bot = ∅ ->
  0 < rateWindow bot ->
  0 <= maxRequests bot ->
  chronological t0 calls now ->
  len (filter (fun t => ~ t <= now - rateWindow bot)
         (acceptedOf userID calls (rateCalls calls bot).1))
  <= maxRequests bot.
Proof.
  intros Hempty HW HN Hch.
  assert (Hinv : forall id, len (stored bot id) <= maxRequests bot).
  { intros id. unfold stored. rewrite Hempty, lookup_empty. done. }
  destruct (rateCalls_bounded calls bot Hinv) as [_ Hbound].
  destruct (rateCalls_stored_accepted userID calls bot [] t0 t0 now HW)
    as (tl & Htl & Hst); [lia| |done|].
  { unfold stored. by rewrite Hempty, lookup_empty. }
  cbn [app] in Hst.
  rewrite <- (filter_window_later (rateWindow bot) tl now) by done.
  rewrite <- Hst.
  pose proof (length_filter (fun t => ~ t <= now - rateWindow bot)
                (stored (rateCalls calls bot).2 userID)) as Hf.
  specialize (Hbound userID). unfold len in *. lia.
Qed.

Lemma rateLimiter_window_guarantee_witness :
  let bot := w_bot (NewTelegramBot exampleToken
               (environWith None None)) in
  let calls := [(7, 0); (8, 1 * Second); (7, 2 * Second); (7, 70 * Second)] in
  rateLimiter bot = ∅ /\ 0 < rateWindow bot /\ 0 <= maxRequests bot /\
  chronological 0 calls (70 * Second) /\
  len (filter (fun t => ~ t <= 70 * Second - rateWindow bot)
         (acceptedOf 7 calls (rateCalls calls bot).1))
  <= maxRequests bot.
Proof.
  cbn zeta.
  assert (H1 : rateLimiter (w_bot (NewTelegramBot exampleToken (environWith None None))) = ∅)
    by reflexivity.
  assert (H2 : 0 < rateWindow (w_bot (NewTelegramBot exampleToken (environWith None None))))
    by reflexivity.
  assert (H3 : 0 <= maxRequests (w_bot (NewTelegramBot exampleToken (environWith None None))))
    by (vm_compute; discriminate).
  assert (H4 : chronological 0 [(7, 0); (8, 1 * Second); (7, 2 * Second); (7, 70 * Second)]
                 (70 * Second)).
  { cbn. repeat split; vm_compute; discriminate. }
  split; [exact H1|]. split; [exact H2|]. split; [exact H3|]. split; [exact H4|].
  exact (rateLimiter_window_guarantee _ _ 7 0 (70 * Second) H1 H2 H3 H4).
Defined.

Lemma answersFor_own (userID : Z) (calls : list (Z * Z)) :
  forall bot1 bot2 : TelegramBot,
    stored bot1 userID = stored bot2 userID ->
    maxRequests bot1 = maxRequests bot2 ->
    rateWindow bot1 = rateWindow bot2 ->
    answersFor userID calls (rateCalls calls bot1).1
    = (rateCalls (filter (fun c : Z * Z => c.1 = userID) calls) bot2).1.
Proof.
  induction calls as [|[u now] calls IH]; intros bot1 bot2 Hst HN HW; [done|].
  cbn [rateCalls fst snd answersFor].
  destruct (checkRateLimitAt_ref now u bot1) as (_ & Hother & HN1 & HW1).
  cbn zeta in *.
  destruct (decide (u = userID)) as [->|Hne].
  - rewrite bool_decide_eq_true_2 by done.
    rewrite filter_cons_True by done. cbn [rateCalls fst snd].
    destruct (checkRateLimitAt_ref now userID bot2) as (_ & _ & HN2 & HW2).
    destruct (checkRateLimitAt_stored now userID bot1) as (Hok1 & Hnew1).
    destruct (checkRateLimitAt_stored now userID bot2) as (Hok2 & Hnew2).
    cbn zeta in *.
    assert (Hok : (checkRateLimitAt now userID bot1).1
                  = (checkRateLimitAt now userID bot2).1).
    { by rewrite Hok1, Hok2, Hst, HN, HW. }
    f_equal; [done|]. apply IH; [|congruence|congruence].
    by rewrite Hnew1, Hnew2, Hok, Hst, HW.
  - rewrite bool_decide_eq_false_2 by done.
    rewrite filter_cons_False by done.
    apply IH; [|congruence|congruence].
    rewrite Hother, bool_decide_eq_false_2 by done. done.
Qed.

(** X10. The limiter treats each identity on its own: the answers an
    identity gets in a sequence of calls are the answers it gets when the
    calls of all other identities are left out. *)
Theorem rateLimiter_per_identity (calls : list (Z * Z)) (bot : TelegramBot)
    (userID : Z) :
  answersFor userID calls (rateCalls calls bot).1
  = (rateCalls (filter (fun c : Z * Z => c.1 = userID) calls) bot).1.
Proof. by apply answersFor_own. Qed.

(** X11. A request that is rejected leaves nothing behind that matters
    later: a later call of the same identity gets the answer, and stores
    the list, that it would have got without the rejected one. *)
Theorem rejected_call_is_forgotten (now now' userID : Z) (bot : TelegramBot) :
  now <= now' ->
  (checkRateLimitAt now userID bot).1 = false ->
  (checkRateLimitAt now' userID (checkRateLimitAt now userID bot).2).1
  = (checkRateLimitAt now' userID bot).1 /\
  stored (checkRateLimitAt now' userID (checkRateLimitAt now userID bot).2).2 userID
  = stored (checkRateLimitAt now' userID bot).2 userID.
Proof.
  intros Hle Hrej.
  destruct (checkRateLimitAt_ref now userID bot) as (_ & _ & HN & HW).
  destruct (checkRateLimitAt_stored now userID bot) as (_ & Hnew).
  destruct (checkRateLimitAt_stored now' userID (checkRateLimitAt now userID bot).2)
    as (Hok2 & Hnew2).
  destruct (checkRateLimitAt_stored now' userID bot) as (Hok1 & Hnew1).
  cbn zeta in *. rewrite Hrej, app_nil_r in Hnew.
  rewrite Hnew, HW, HN, filter_window_later in Hok2 by done.
  rewrite Hnew, HW, filter_window_later in Hnew2 by done.
  assert (Hok : (checkRateLimitAt now' userID (checkRateLimitAt now userID bot).2).1
                = (checkRateLimitAt now' userID bot).1) by congruence.
  split; [done|]. by rewrite Hnew2, Hnew1, Hok.
Qed.

Lemma rejected_call_is_forgotten_witness :
  let bot :=
    (rateCalls [(7, 0); (7, 1 * Second)]
       (w_bot (NewTelegramBot exampleToken
                 {| ALLOWED_USER_IDS := None; RATE_LIMIT_MAX := Some 2;
                    RATE_LIMIT_WINDOW := None; MAX_PROMPT_LENGTH := None;
                    OLLAMA_URL := []; OLLAMA_MODEL := [] |}))).2 in
  2 * Second <= 61 * Second /\
  (checkRateLimitAt (2 * Second) 7 bot).1 = false /\
  (checkRateLimitAt (61 * Second) 7 (checkRateLimitAt (2 * Second) 7 bot).2).1
  = (checkRateLimitAt (61 * Second) 7 bot).1 /\
  stored (checkRateLimitAt (61 * Second) 7 (checkRateLimitAt (2 * Second) 7 bot).2).2 7
  = stored (checkRateLimitAt (61 * Second) 7 bot).2 7.
Proof.
  cbn zeta.
  assert (H1 : 2 * Second <= 61 * Second) by (vm_compute; discriminate).
  split; [exact H1|]. split; [reflexivity|].
  apply rejected_call_is_forgotten; [exact H1|reflexivity].
Defined.

Lemma filter_none (P : Z -> Prop) `{forall t, Decision (P t)} (l : list Z) :
  Forall (fun t => ~ P t) l -> filter P l = [].
Proof.
  induction 1 as [|t l Ht _ IH]; [done|]. by rewrite filter_cons_False.
Qed.

(** X12. An identity whose kept timestamps have all left the window, and
    so one that was never seen, is accepted whenever the capacity is
    positive, and its list becomes the one timestamp [now]. *)
Theorem quiet_identity_is_accepted (now userID : Z) (bot : TelegramBot) :
  0 < maxRequests bot ->
  Forall (fun t => t <= now - rateWindow bot) (stored bot userID) ->
  (checkRateLimitAt now userID bot).1 = true /\
  stored (checkRateLimitAt now userID bot).2 userID = [now].
Proof.
  intros HN Hold.
  destruct (checkRateLimitAt_stored now userID bot) as (Hok & Hnew).
  cbn zeta in *.
  rewrite (filter_none (fun t => ~ t <= now - rateWindow bot)) in Hok, Hnew.
  2,3: eapply Forall_impl; [exact Hold|]; cbn; lia.
  rewrite bool_decide_eq_false_2 in Hok by (unfold len; cbn; lia).
  split; [done|]. by rewrite Hnew, Hok.
Qed.

Lemma quiet_identity_is_accepted_witness :
  let bot := w_bot (NewTelegramBot exampleToken defaultEnviron) in
  0 < maxRequests bot /\
  Forall (fun t => t <= 5 * Second - rateWindow bot) (stored bot 7) /\
  (checkRateLimitAt (5 * Second) 7 bot).1 = true /\
  stored (checkRateLimitAt (5 * Second) 7 bot).2 7 = [5 * Second].
Proof.
  cbn zeta.
  assert (H1 : 0 < maxRequests (w_bot (NewTelegramBot exampleToken defaultEnviron)))
    by reflexivity.
  assert (H2 : Forall (fun t => t <= 5 * Second
                         - rateWindow (w_bot (NewTelegramBot exampleToken defaultEnviron)))
                 (stored (w_bot (NewTelegramBot exampleToken defaultEnviron)) 7))
    by constructor.
  split; [exact H1|]. split; [exact H2|].
  exact (quiet_identity_is_accepted (5 * Second) 7 _ H1 H2).
Defined.

(** X13. After a call at [now], with a positive window, every timestamp
    kept for the identity of the call is later than [now - W]: what left
    the window is gone from its list. *)
Theorem stored_within_window (now userID : Z) (bot : TelegramBot) :
  0 < rateWindow bot ->
  Forall (fun t => now - rateWindow bot < t)
    (stored (checkRateLimitAt now userID bot).2 userID).
Proof.
  intros HW. destruct (checkRateLimitAt_stored now userID bot) as (_ & Hnew).
  cbn zeta in *. rewrite Hnew. apply Forall_app. split.
  - apply Forall_forall. intros t [Ht _]%list_elem_of_filter. lia.
  - destruct (checkRateLimitAt now userID bot).1; repeat constructor. lia.
Qed.

Lemma stored_within_window_witness :
  let bot :=
    (rateCalls [(7, 0); (7, 30 * Second)]
       (w_bot (NewTelegramBot exampleToken defaultEnviron))).2 in
  0 < rateWindow bot /\
  Forall (fun t => 70 * Second - rateWindow bot < t)
    (stored (checkRateLimitAt (70 * Second) 7 bot).2 7).
Proof.
  cbn zeta.
  assert (H1 : 0 < rateWindow (rateCalls [(7, 0); (7, 30 * Second)]
                  (w_bot (NewTelegramBot exampleToken defaultEnviron))).2)
    by reflexivity.
  split; [exact H1|].
  exact (stored_within_window (70 * Second) 7 _ H1).
Defined.

End RateLimiterWindow.

(** ** More on the access guard and on start-up *)

Section AccessGuardMore.

Lemma parseAllowed_empty_iff (fields : list (option Z)) :
  parseAllowed fields ∅ = ∅ <-> Forall (fun f => f = None) fields.
Proof.
  split.
  - intros Hm. apply Forall_forall. intros [id|] Hin; [|done].
    apply (f_equal (fun m : gmap Z bool => m !! id)) in Hm.
    rewrite parseAllowed_lookup, bool_decide_eq_true_2, lookup_empty in Hm by done.
    discriminate Hm.
  - intros Hall. apply map_eq. intros id.
    rewrite parseAllowed_lookup, bool_decide_eq_false_2; [done|].
    intros Hin. rewrite Forall_forall in Hall. by specialize (Hall _ Hin).
Qed.

(** X14. Whatever the environment variables hold, the bot built by
    [NewTelegramBot] starts with an empty rate limiter and a watermark of
    0. Its capacity, its window and its prompt limit are the values given
    when these are positive, and otherwise (missing, not parsed, zero or
    negative) the defaults 10, one minute and 4096; so they are always
    positive. *)
Theorem start_up_settings_are_positive (token : gostring) (e : Environ) :
  rateLimiter (w_bot (NewTelegramBot token e)) = ∅ /\
  LastUpdate (w_bot (NewTelegramBot token e)) = 0 /\
  maxRequests (w_bot (NewTelegramBot token e))
  = match RATE_LIMIT_MAX e with
    | Some n => if bool_decide (0 < n) then n else 10
    | None => 10
    end /\
  rateWindow (w_bot (NewTelegramBot token e))
  = match RATE_LIMIT_WINDOW e with
    | Some d => if bool_decide (0 < d) then d else 60 * Second
    | None => 60 * Second
    end /\
  maxPromptLen (w_bot (NewTelegramBot token e))
  = match MAX_PROMPT_LENGTH e with
    | Some n => if bool_decide (0 < n) then n else 4096
    | None => 4096
    end /\
  0 < maxRequests (w_bot (NewTelegramBot token e)) /\
  0 < rateWindow (w_bot (NewTelegramBot token e)) /\
  0 < maxPromptLen (w_bot (NewTelegramBot token e)).
Proof.
  destruct (NewTelegramBot_settings token e) as (Hr & Hl & Hn & Hw & Hp).
  cbn zeta in *. split; [done|]. split; [done|].
  split; [|split; [|split; [|done]]]; cbn; unfold positiveOr.
  - destruct (RATE_LIMIT_MAX e) as [n|]; [|done].
    destruct (decide (0 < n)); [by rewrite !bool_decide_eq_true_2 by lia|].
    by rewrite !bool_decide_eq_false_2 by lia.
  - destruct (RATE_LIMIT_WINDOW e) as [d|]; [|done].
    destruct (decide (0 < d)); [by rewrite !bool_decide_eq_true_2 by lia|].
    by rewrite !bool_decide_eq_false_2 by lia.
  - destruct (MAX_PROMPT_LENGTH e) as [n|]; [|done].
    destruct (decide (0 < n)); [by rewrite !bool_decide_eq_true_2 by lia|].
    by rewrite !bool_decide_eq_false_2 by lia.
Qed.

(** X15. When [ALLOWED_USER_IDS] is unset, empty, or holds no field that
    parses as an id, the bot built by [NewTelegramBot] allows every
    message, whoever sent it. *)
Theorem allow_list_without_ids_is_open (token : gostring) (e : Environ)
    (message : Message) :
  (forall fields, ALLOWED_USER_IDS e = Some fields ->
                  Forall (fun f => f = None) fields) ->
  isUserAllowed (w_bot (NewTelegramBot token e)) message = Returns true.
Proof.
  intros Hnone. apply isUserAllowed_open. cbn.
  destruct (ALLOWED_USER_IDS e) as [fields|]; [|done].
  apply parseAllowed_empty_iff, Hnone. done.
Qed.

Lemma allow_list_without_ids_is_open_witness :
  let e := environWith (Some [None; None]) None in
  (forall fields, ALLOWED_USER_IDS e = Some fields ->
                  Forall (fun f => f = None) fields) /\
  isUserAllowed (w_bot (NewTelegramBot exampleToken e))
    (textMessage (Some (userOf 6)) (Some (privateChat 6)) (str "hi"))
  = Returns true.
Proof.
  cbn zeta.
  assert (H : forall fields,
             ALLOWED_USER_IDS (environWith (Some [None; None]) None) = Some fields ->
             Forall (fun f => f = None) fields).
  { intros fields [= <-]. repeat constructor. }
  split; [exact H|].
  exact (allow_list_without_ids_is_open exampleToken
           (environWith (Some [None; None]) None)
           (textMessage (Some (userOf 6)) (Some (privateChat 6)) (str "hi")) H).
Defined.

(** X16. When at least one field of [ALLOWED_USER_IDS] parses, the bot
    built by [NewTelegramBot] allows a message with a sender exactly when
    the sender's id is one of the ids that parsed; fields that do not
    parse, repetitions and order play no part. *)
Theorem allow_list_membership (token : gostring) (e : Environ)
    (fields : list (option Z)) (id0 : Z) (message : Message) (from : User) :
  ALLOWED_USER_IDS e = Some fields ->
  Some id0 ∈ fields ->
  Message_From message = Some from ->
  isUserAllowed (w_bot (NewTelegramBot token e)) message
  = Returns (bool_decide (Some (User_ID from) ∈ fields)).
Proof.
  intros He Hin Hfrom.
  rewrite isUserAllowed_closed.
  - rewrite Hfrom, NewTelegramBot_allowed, He. f_equal.
    destruct (decide (Some (User_ID from) ∈ fields)) as [Hm|Hm].
    + by rewrite !bool_decide_eq_true_2 by (by rewrite ?bool_decide_eq_true_2).
    + rewrite (bool_decide_eq_false_2 _ Hm). by rewrite bool_decide_eq_false_2.
  - intros Hempty.
    apply (f_equal (fun m : gmap Z bool => m !! id0)) in Hempty.
    rewrite NewTelegramBot_allowed, He, bool_decide_eq_true_2, lookup_empty in Hempty
      by done.
    discriminate Hempty.
Qed.

Lemma allow_list_membership_witness :
  let e := environWith (Some [Some 5; None; Some 9; Some 5]) None in
  let message := textMessage (Some (userOf 9)) (Some (privateChat 1)) (str "hi") in
  ALLOWED_USER_IDS e = Some [Some 5; None; Some 9; Some 5] /\
  Some 5 ∈ [Some 5; None; Some 9; Some 5] /\
  Message_From message = Some (userOf 9) /\
  isUserAllowed (w_bot (NewTelegramBot exampleToken e)) message
  = Returns (bool_decide (Some (User_ID (userOf 9)) ∈ [Some 5; None; Some 9; Some 5])).
Proof.
  cbn zeta.
  assert (H : Some 5 ∈ [Some 5; None; Some 9; Some 5]) by left.
  split; [reflexivity|]. split; [exact H|]. split; [reflexivity|].
  exact (allow_list_membership exampleToken
           (environWith (Some [Some 5; None; Some 9; Some 5]) None)
           [Some 5; None; Some 9; Some 5] 5
           (textMessage (Some (userOf 9)) (Some (privateChat 1)) (str "hi"))
           (userOf 9) eq_refl H eq_refl).
Defined.

Lemma isUserAllowed_panics_inner (bot : TelegramBot) (message : Message) :
  isUserAllowed bot message = Panics <->
  AllowedUsers bot <> ∅ /\ Message_From message = None /\
  Message_Chat message = None.
Proof.
  destruct (decide (AllowedUsers bot = ∅)) as [He|Hne].
  - rewrite isUserAllowed_open by done. split; [discriminate|]. by intros [? _].
  - rewrite isUserAllowed_closed by done.
    destruct (Message_From message), (Message_Chat message);
      (split; [try discriminate; done|]); try by intros (_ & ? & ?).
Qed.

(** X17. [isUserAllowed], called on a bot with the pointer to a message,
    panics exactly when the allow-list is not empty and the message is
    nil or has neither a sender nor a chat; in every other case it
    returns. With an empty allow-list it returns [true] even for a nil
    message. *)
Theorem isUserAllowed_panics_iff (bot : TelegramBot) (message : option Message) :
  (isUserAllowed_ptr bot message = Panics <->
   AllowedUsers bot <> ∅ /\
   (message = None \/
    exists m, message = Some m /\ Message_From m = None /\ Message_Chat m = None)) /\
  (isUserAllowed_ptr bot message <> Panics ->
   exists b : bool, isUserAllowed_ptr bot message = Returns b) /\
  (AllowedUsers bot = ∅ -> isUserAllowed_ptr bot message = Returns true).
Proof.
  unfold isUserAllowed_ptr. split; [|split].
  - destruct (decide (AllowedUsers bot = ∅)) as [He|Hne].
    + rewrite He, map_size_empty. cbn. split; [discriminate|]. by intros [? _].
    + rewrite bool_decide_eq_false_2 by (by rewrite map_size_empty_iff).
      destruct message as [m|].
      * rewrite isUserAllowed_panics_inner. split.
        -- intros (_ & Hf & Hc). split; [done|]. right. by exists m.
        -- intros (_ & [[=]|(m' & [= <-] & Hf & Hc)]). done.
      * split; [|done]. intros _. split; [done|]. by left.
  - case_bool_decide; [by exists true|]. destruct message as [m|]; [|done].
    unfold isUserAllowed. rewrite bool_decide_eq_false_2 by done.
    destruct (Message_From m); [by eexists|].
    destruct (Message_Chat m); [by eexists|done].
  - intros He. by rewrite He, map_size_empty.
Qed.

Lemma isUserAllowed_panics_iff_witness :
  let bot := w_bot (NewTelegramBot exampleToken (environWith (Some [Some 5]) None)) in
  isUserAllowed_ptr bot None = Panics /\
  isUserAllowed_ptr bot (Some (textMessage None None (str "hi"))) = Panics /\
  (exists b : bool,
     isUserAllowed_ptr bot (Some (textMessage None (Some (privateChat 5)) (str "hi")))
     = Returns b) /\
  isUserAllowed_ptr (w_bot (NewTelegramBot exampleToken defaultEnviron)) None
  = Returns true.
Proof.
  cbn zeta.
  assert (H1 : AllowedUsers (w_bot (NewTelegramBot exampleToken
                 (environWith (Some [Some 5]) None))) <> ∅).
  { intros E. apply (f_equal (fun m : gmap Z bool => m !! 5)) in E.
    vm_compute in E. discriminate E. }
  split; [|split; [|split]].
  - apply (proj1 (isUserAllowed_panics_iff _ None)). split; [exact H1|]. by left.
  - apply (proj1 (isUserAllowed_panics_iff _ (Some (textMessage None None (str "hi"))))).
    split; [exact H1|]. right. by eexists.
  - apply (proj1 (proj2 (isUserAllowed_panics_iff _
             (Some (textMessage None (Some (privateChat 5)) (str "hi")))))).
    discriminate.
  - apply (proj2 (proj2 (isUserAllowed_panics_iff _ None))). reflexivity.
Defined.

(** X18. [SendPrompt] returns a text, with a nil error, exactly when the
    exchange went through, the response carries no error message and is
    marked done; the text is then the response field as it is. An error
    message in the response wins over [done]. *)
Theorem OllamaResult_success_iff (x : exchange) (response : gostring) :
  OllamaResult x = inl response <->
  exists r : OllamaResponse,
    x = Decoded r /\ Response_Error r = [] /\ Response_Done r = true /\
    Response_Response r = response.
Proof.
  split.
  - destruct x as [e|e|e|code body|e|e|r]; cbn [OllamaResult]; try discriminate.
    case_bool_decide as He; [discriminate|].
    destruct (Response_Done r) eqn:Hd; cbn [negb]; [|discriminate].
    intros [= <-]. exists r. repeat split; [|done].
    destruct (Response_Error r); [done|]. by destruct He.
  - intros (r & -> & He & Hd & <-). cbn [OllamaResult].
    rewrite bool_decide_eq_false_2 by (rewrite He; intros H; by apply H).
    by rewrite Hd.
Qed.

End AccessGuardMore.

(** ** More on the dispatcher *)

Section DispatcherMore.

Variable ReplaceAll : gostring -> gostring -> gostring -> gostring.
Variable env : Env.

Lemma prompts_app (t1 t2 : list event) :
  prompts (t1 ++ t2) = prompts t1 ++ prompts t2.
Proof. induction t1 as [|e t1 IH]; [done|]. destruct e; cbn; by rewrite ?IH. Qed.

Lemma sleeps_app (t1 t2 : list event) :
  sleeps (t1 ++ t2) = sleeps t1 ++ sleeps t2.
Proof. induction t1 as [|e t1 IH]; [done|]. destruct e; cbn; by rewrite ?IH. Qed.

Lemma set_rateLimiter_same (bot : TelegramBot) :
  set_rateLimiter (rateLimiter bot) bot = bot.
Proof. by destruct bot. Qed.

Lemma checkRateLimitAt_frame (now userID : Z) (bot : TelegramBot) :
  (checkRateLimitAt now userID bot).2
  = set_rateLimiter (rateLimiter (checkRateLimitAt now userID bot).2) bot.
Proof. unfold checkRateLimitAt. by case_bool_decide. Qed.

(** The sending loop adds to the trace and to nothing else; it gives no
    prompt and sleeps between two parts, not after the last. *)
Lemma sendParts_effects (chatID n : Z) (parts : list gostring) :
  forall (i : Z) (w : World),
    n = i + len parts ->
    (exists evs, w_trace (sendParts ReplaceAll env chatID n i parts w)
                 = w_trace w ++ evs) /\
    prompts (w_trace (sendParts ReplaceAll env chatID n i parts w))
    = prompts (w_trace w) /\
    sleeps (w_trace (sendParts ReplaceAll env chatID n i parts w))
    = sleeps (w_trace w) ++ replicate (pred (length parts)) (100 * Millisecond).
Proof.
  induction parts as [|part rest IH]; intros i w Hn; cbn [sendParts].
  - split; [exists []|]; by rewrite app_nil_r.
  - cbn zeta.
    assert (Hlast : bool_decide (i < n - 1) = bool_decide (rest <> [])).
    { unfold len in Hn. cbn [length] in Hn. destruct rest as [|part' rest'].
      - rewrite (bool_decide_eq_false_2 (i < n - 1)) by (cbn [length] in Hn; lia).
        by rewrite bool_decide_eq_false_2 by (by intros H; apply H).
      - rewrite (bool_decide_eq_true_2 (i < n - 1)) by (cbn [length] in Hn; lia).
        by rewrite bool_decide_eq_true_2. }
    rewrite Hlast.
    match goal with |- context [sendParts _ _ _ _ _ rest ?w0] =>
      set (w1 := w0);
      destruct (IH (i + 1) w1) as ((evs & Ht) & Hp & Hs);
        [unfold len in *; cbn [length] in Hn; lia|]
    end.
    assert (H1 : exists e1, w_trace w1 = w_trace w ++ e1 /\
                   prompts e1 = [] /\
                   sleeps e1 = if bool_decide (rest <> []) then [100 * Millisecond] else []).
    { clear Hlast Ht Hp Hs.
      unfold w1, SendMessage, logPrintf, Sleep, emit. cbn [fst snd].
      destruct (env_send env (w_trace w) chatID _);
        destruct (bool_decide (rest <> []));
        cbn [w_bot w_trace]; eexists; rewrite <- ?app_assoc;
        (split; [reflexivity|]); done. }
    destruct H1 as (e1 & Ht1 & Hp1 & Hs1).
    split; [|split].
    + exists (e1 ++ evs). by rewrite Ht, Ht1, app_assoc.
    + by rewrite Hp, Ht1, prompts_app, Hp1, app_nil_r.
    + rewrite Hs, Ht1, sleeps_app, Hs1, <- app_assoc. f_equal.
      destruct rest; [by rewrite bool_decide_eq_false_2 by (by intros H; apply H)|].
      by rewrite bool_decide_eq_true_2.
Qed.

(** In every case [handleTextMessage] returns, adds to the trace, and
    leaves the bot as [checkRateLimit] left it. *)
Lemma handleTextMessage_frame (chatID : Z) (text : gostring) (w : World) :
  exists (w' : World) (evs : list event),
    handleTextMessage ReplaceAll env chatID text w = Returns w' /\
    w_trace w' = w_trace w ++ evs /\
    w_bot w' = (checkRateLimitAt (env_now env (w_trace w)) chatID (w_bot w)).2.
Proof.
  unfold handleTextMessage, checkRateLimit. cbn zeta. cbn [fst snd].
  destruct (checkRateLimitAt_watermark (env_now env (w_trace w)) chatID (w_bot w))
    as (_ & Hp & _).
  destruct (checkRateLimitAt (env_now env (w_trace w)) chatID (w_bot w)) as [ok bot'].
  cbn [fst snd] in *. unfold with_bot. cbn [w_bot w_trace].
  destruct ok; cbn [negb].
  2:{ eexists _, _. split; [reflexivity|]. split; reflexivity. }
  case_bool_decide.
  { eexists _, _. split; [reflexivity|]. split; reflexivity. }
  unfold SendPrompt, SendMessage, logPrintf, sanitizeError, emit.
  cbn [fst snd w_bot w_trace].
  destruct (OllamaResult _) as [response|err].
  - destruct (SplitMessage_spec response 4000 ltac:(lia)) as (parts & Hrun & _).
    specialize (Hrun 1%nat). rewrite Nat.add_1_r in Hrun.
    rewrite Hrun. cbn.
    match goal with |- context [sendParts _ _ _ _ _ parts ?w0] =>
      destruct (sendParts_first ReplaceAll env chatID parts w0) as (Hb & _);
      destruct (sendParts_effects chatID (len parts) parts 0 w0) as ((evs & Ht) & _);
        [lia|]
    end.
    eexists _, _. split; [reflexivity|]. rewrite Hb, Ht. cbn [w_bot w_trace].
    split; [|done]. rewrite <- !app_assoc. reflexivity.
  - destruct (env_send env _ chatID msgFailure); cbn [w_bot w_trace];
      eexists _, _; (split; [reflexivity|]); cbn [w_bot w_trace];
      (split; [|done]); rewrite <- !app_assoc; reflexivity.
Qed.

Lemma marked_bound (parts : list gostring) :
  Forall (fun part => len part <= 4000) parts ->
  Forall (fun part => len part <= 4044) (marked parts).
Proof.
  intros H. destruct parts as [|part [|part' rest]]; cbn [marked].
  - constructor.
  - eapply Forall_impl; [exact H|]. cbn. lia.
  - apply Forall_cons in H as [Hp Hr]. constructor.
    + rewrite len_app. change (len continuationMarker) with 44. lia.
    + eapply Forall_impl; [exact Hr|]. cbn. lia.
Qed.

Lemma paced_app (t1 t2 : list event) : paced (t1 ++ t2) = paced t1 ++ paced t2.
Proof. induction t1 as [|e t1 IH]; [done|]. destruct e; cbn; by rewrite ?IH. Qed.

(** The sends and the sleeps of the sending loop, in their places: each
    part is sent, and a sleep follows it when another part does. *)
Lemma sendParts_paced (chatID n : Z) (parts : list gostring) :
  forall (i : Z) (w : World),
    0 <= i -> n = i + len parts ->
    paced (w_trace (sendParts ReplaceAll env chatID n i parts w))
    = paced (w_trace w)
      ++ chunkEvents chatID
           (match parts with
            | part :: rest =>
                (if bool_decide (i = 0) && bool_decide (n > 1)
                 then part ++ continuationMarker else part) :: rest
            | [] => []
            end).
Proof.
  induction parts as [|part rest IH]; intros i w Hi Hn; cbn [sendParts].
  - by rewrite app_nil_r.
  - cbn zeta.
    assert (Hlast : bool_decide (i < n - 1) = bool_decide (rest <> [])).
    { unfold len in Hn. cbn [length] in Hn. destruct rest as [|part' rest'].
      - rewrite (bool_decide_eq_false_2 (i < n - 1)) by (cbn [length] in Hn; lia).
        by rewrite bool_decide_eq_false_2 by (by intros H; apply H).
      - rewrite (bool_decide_eq_true_2 (i < n - 1)) by (cbn [length] in Hn; lia).
        by rewrite bool_decide_eq_true_2. }
    rewrite Hlast.
    set (text := if bool_decide (i = 0) && bool_decide (n > 1)
                 then part ++ continuationMarker else part).
    match goal with |- context [sendParts _ _ _ _ _ rest ?w0] =>
      set (w1 := w0);
      pose proof (IH (i + 1) w1 ltac:(lia)
                    ltac:(unfold len in *; cbn [length] in Hn; lia)) as Hrest
    end.
    rewrite (bool_decide_eq_false_2 (i + 1 = 0)) in Hrest by lia.
    cbn [andb] in Hrest.
    assert (Hrest' : paced (w_trace (sendParts ReplaceAll env chatID n (i + 1) rest w1))
                     = paced (w_trace w1) ++ chunkEvents chatID rest).
    { rewrite Hrest. by destruct rest. }
    rewrite Hrest'. clear Hrest Hrest' Hlast.
    assert (H1 : paced (w_trace w1)
                 = paced (w_trace w) ++ EvSend chatID text ::
                     (if bool_decide (rest <> []) then [EvSleep (100 * Millisecond)]
                      else [])).
    { unfold w1, SendMessage, logPrintf, Sleep, emit. cbn [fst snd].
      destruct (env_send env (w_trace w) chatID text);
        destruct (bool_decide (rest <> []));
        cbn [w_bot w_trace]; rewrite !paced_app; cbn [paced];
        by rewrite ?app_nil_r, <- ?app_assoc. }
    rewrite H1, <- app_assoc. f_equal. cbn [chunkEvents app]. f_equal.
    destruct rest as [|part' rest'].
    + by rewrite bool_decide_eq_false_2 by (by intros H; apply H).
    + by rewrite bool_decide_eq_true_2.
Qed.

(** X19. A freeform text that passes the limiter and the length check,
    answered by the backend. What the bot does to the outside, log lines
    aside, is in this order: the acknowledgment, the call of the backend
    with the text as it is, then the chunks of the reply one after the
    other, the first with the marker when there are several, with a sleep
    of 100 ms between each two consecutive chunks and none after the last.
    No chunk as sent is longer than 4044 bytes. *)
Theorem reply_is_sent_in_order (chatID : Z) (text response : gostring) (w : World) :
  (checkRateLimitAt (env_now env (w_trace w)) chatID (w_bot w)).1 = true ->
  len text <= maxPromptLen (w_bot w) ->
  OllamaResult (env_ollama env (w_trace w ++ [EvSend chatID msgProcessing]) text)
  = inl response ->
  exists (w' : World) (parts : list gostring),
    handleTextMessage ReplaceAll env chatID text w = Returns w' /\
    Segmenter.SplitMessage (S (length response)) response 4000 = Returns parts /\
    paced (w_trace w')
    = paced (w_trace w)
      ++ EvSend chatID msgProcessing :: EvPrompt text
         :: chunkEvents chatID (marked parts) /\
    prompts (w_trace w') = prompts (w_trace w) ++ [text] /\
    sends (w_trace w')
    = sends (w_trace w) ++ (chatID, msgProcessing) :: map (pair chatID) (marked parts) /\
    Forall (fun part => len part <= 4044) (marked parts) /\
    sleeps (w_trace w')
    = sleeps (w_trace w) ++ replicate (pred (length parts)) (100 * Millisecond).
Proof.
  intros Hok Hlen Hres.
  destruct (SplitMessage_spec response 4000 ltac:(lia)) as (parts & Hrun & _ & Hle & _).
  specialize (Hrun 1%nat). rewrite Nat.add_1_r in Hrun.
  unfold handleTextMessage, checkRateLimit. cbn zeta. cbn [fst snd].
  destruct (checkRateLimitAt_watermark (env_now env (w_trace w)) chatID (w_bot w))
    as (_ & Hp & _).
  destruct (checkRateLimitAt (env_now env (w_trace w)) chatID (w_bot w)) as [ok bot'].
  cbn [fst snd] in *. subst ok. unfold with_bot. cbn [w_bot w_trace negb].
  rewrite Hp. rewrite bool_decide_eq_false_2 by lia.
  unfold SendPrompt, SendMessage, emit. cbn [fst snd w_bot w_trace].
  rewrite Hres, Hrun. cbn.
  match goal with |- context [sendParts _ _ _ _ _ parts ?w0] =>
    destruct (sendParts_first ReplaceAll env chatID parts w0) as (_ & Hs);
    destruct (sendParts_effects chatID (len parts) parts 0 w0) as (_ & Hpr & Hsl);
      [lia|];
    pose proof (sendParts_paced chatID (len parts) parts 0 w0 ltac:(lia) ltac:(lia))
      as Hpc
  end.
  assert (Hm : match parts with
               | part :: rest =>
                   (if bool_decide (0 = 0) && bool_decide (len parts > 1)
                    then part ++ continuationMarker else part) :: rest
               | [] => []
               end = marked parts).
  { destruct parts as [|part [|part' rest]]; [done| |].
    - rewrite (bool_decide_eq_false_2 (len [part] > 1)) by (unfold len; cbn; lia).
      by rewrite andb_false_r.
    - rewrite (bool_decide_eq_true_2 (0 = 0)) by done.
      rewrite (bool_decide_eq_true_2 (len (part :: part' :: rest) > 1))
        by (unfold len; cbn [length]; lia).
      done. }
  rewrite Hm in Hpc. clear Hm.
  eexists _, parts. split; [reflexivity|]. split; [done|].
  rewrite Hpc, Hpr, Hs, Hsl. cbn [w_trace].
  rewrite !paced_app, !prompts_app, !sends_app, !sleeps_app.
  cbn [paced prompts sends sleeps].
  rewrite !app_nil_r, <- !app_assoc. repeat split; try done.
  by apply marked_bound.
Qed.

(** X20. When the backend answers with the empty text, the bot still
    sends it: after the acknowledgment, one message with an empty text. *)
Theorem empty_reply_is_sent (chatID : Z) (text : gostring) (w : World) :
  (checkRateLimitAt (env_now env (w_trace w)) chatID (w_bot w)).1 = true ->
  len text <= maxPromptLen (w_bot w) ->
  OllamaResult (env_ollama env (w_trace w ++ [EvSend chatID msgProcessing]) text)
  = inl [] ->
  exists w' : World,
    handleTextMessage ReplaceAll env chatID text w = Returns w' /\
    sends (w_trace w') = sends (w_trace w) ++ [(chatID, msgProcessing); (chatID, [])].
Proof.
  intros Hok Hlen Hres.
  destruct (handleTextMessage_cases ReplaceAll env chatID text w) as (w' & Hrun & _ & Hcase).
  rewrite Hok, Hres in Hcase. cbn [negb] in Hcase.
  rewrite bool_decide_eq_false_2 in Hcase by lia.
  destruct Hcase as (parts & Hparts & Hsends).
  exists w'. split; [done|]. rewrite Hsends.
  cbn in Hparts. by injection Hparts as <-.
Qed.

(** X21. A request over the limit: the only effect on the outside is the
    notice sent to the chat, the backend is not called, and the list kept
    for the chat is the pruned one, with no timestamp added. *)
Theorem rate_limited_request_is_dropped (chatID : Z) (text : gostring) (w : World) :
  (checkRateLimitAt (env_now env (w_trace w)) chatID (w_bot w)).1 = false ->
  exists w' : World,
    handleTextMessage ReplaceAll env chatID text w = Returns w' /\
    w_trace w' = w_trace w ++ [EvSend chatID msgRateLimited] /\
    stored (w_bot w') chatID
    = filter (fun t => ~ t <= env_now env (w_trace w) - rateWindow (w_bot w))
        (stored (w_bot w) chatID).
Proof.
  intros Hrej.
  destruct (handleTextMessage_cases ReplaceAll env chatID text w) as (w' & Hrun & _ & Hcase).
  destruct (handleTextMessage_frame chatID text w) as (w2 & evs & Hrun2 & _ & Hbot).
  rewrite Hrun in Hrun2. injection Hrun2 as <-.
  rewrite Hrej in Hcase. cbn [negb] in Hcase.
  exists w'. split; [done|]. split; [done|].
  destruct (checkRateLimitAt_stored (env_now env (w_trace w)) chatID (w_bot w))
    as (_ & Hst).
  cbn zeta in Hst. by rewrite Hbot, Hst, Hrej, app_nil_r.
Qed.

(** X22. A text longer than [maxPromptLen] that passes the limiter: the
    only effect on the outside is the notice with the limit in it, the
    backend is not called, but the request counts: its time is added to
    the list kept for the chat. *)
Theorem too_long_request_counts (chatID : Z) (text : gostring) (w : World) :
  (checkRateLimitAt (env_now env (w_trace w)) chatID (w_bot w)).1 = true ->
  len text > maxPromptLen (w_bot w) ->
  exists w' : World,
    handleTextMessage ReplaceAll env chatID text w = Returns w' /\
    w_trace w' = w_trace w ++ [EvSend chatID (msgTooLong (maxPromptLen (w_bot w)))] /\
    stored (w_bot w') chatID
    = filter (fun t => ~ t <= env_now env (w_trace w) - rateWindow (w_bot w))
        (stored (w_bot w) chatID) ++ [env_now env (w_trace w)].
Proof.
  intros Hok Hlong.
  destruct (handleTextMessage_cases ReplaceAll env chatID text w) as (w' & Hrun & _ & Hcase).
  destruct (handleTextMessage_frame chatID text w) as (w2 & evs & Hrun2 & _ & Hbot).
  rewrite Hrun in Hrun2. injection Hrun2 as <-.
  rewrite Hok in Hcase. cbn [negb] in Hcase.
  rewrite bool_decide_eq_true_2 in Hcase by done.
  exists w'. split; [done|]. split; [done|].
  destruct (checkRateLimitAt_stored (env_now env (w_trace w)) chatID (w_bot w))
    as (_ & Hst).
  cbn zeta in Hst. by rewrite Hbot, Hst, Hok.
Qed.

(** X23. The commands [/start] and [/help] of an allowed sender get their
    fixed reply and nothing else: the backend is not called and the bot,
    its rate limiter included, is left as it was. *)
Theorem known_commands_are_free (message : Message) (chat : Chat) (w : World) :
  Message_Chat message = Some chat ->
  isUserAllowed (w_bot w) message = Returns true ->
  Message_Text message = str "/start" \/ Message_Text message = str "/help" ->
  exists w' : World,
    HandleMessage ReplaceAll env (Some message) w = Returns w' /\
    w_bot w' = w_bot w /\
    sends (w_trace w')
    = sends (w_trace w)
      ++ [(Chat_ID chat,
           if bool_decide (Message_Text message = str "/start")
           then msgStart else msgHelp)] /\
    prompts (w_trace w') = prompts (w_trace w).
Proof.
  intros Hchat Ha Htext.
  rewrite (HandleMessage_allowed ReplaceAll env message chat w Hchat Ha).
  unfold handleCommand, sendOrLog, SendMessage, logPrintf, emit. cbn [fst snd].
  destruct Htext as [-> | ->]; cbn [isCommand Ascii.eqb Bool.eqb].
  - rewrite !(bool_decide_eq_true_2 (str "/start" = str "/start")) by done.
    eexists. split; [reflexivity|].
    destruct (env_send env _ _ msgStart); cbn [w_bot w_trace];
      rewrite ?sends_app, ?prompts_app; cbn [sends prompts];
      by rewrite ?app_nil_r.
  - rewrite !(bool_decide_eq_false_2 (str "/help" = str "/start")) by discriminate.
    rewrite (bool_decide_eq_true_2 (str "/help" = str "/help")) by done.
    eexists. split; [reflexivity|].
    destruct (env_send env _ _ msgHelp); cbn [w_bot w_trace];
      rewrite ?sends_app, ?prompts_app; cbn [sends prompts];
      by rewrite ?app_nil_r.
Qed.

(** X24. With a non-empty allow-list, a message whose sender is not a
    member leaves one log line and nothing else: nothing is sent, the
    backend is not called, and the bot, its rate limiter included, is left
    as it was. *)
Theorem denied_sender_gets_nothing (message : Message) (from : User) (chat : Chat)
    (w : World) :
  AllowedUsers (w_bot w) <> ∅ ->
  Message_From message = Some from ->
  AllowedUsers (w_bot w) !! User_ID from <> Some true ->
  Message_Chat message = Some chat ->
  exists w' : World,
    HandleMessage ReplaceAll env (Some message) w = Returns w' /\
    w_bot w' = w_bot w /\
    w_trace w'
    = w_trace w ++
      [EvLog (str "Отклонён запрос от неавторизованного пользователя (chat_id: %d)")
             [AInt (Chat_ID chat)]].
Proof.
  intros Hne Hfrom Hnot Hchat.
  assert (Ha : isUserAllowed (w_bot w) message = Returns false).
  { rewrite isUserAllowed_closed by done. rewrite Hfrom.
    by rewrite bool_decide_eq_false_2. }
  rewrite (HandleMessage_denied ReplaceAll env message chat w Hchat Ha).
  eexists. split; [reflexivity|]. done.
Qed.

Lemma handleCommand_frame (chatID : Z) (command : gostring) (w : World) :
  exists (w' : World) (evs : list event),
    handleCommand ReplaceAll env chatID command w = Returns w' /\
    w_trace w' = w_trace w ++ evs /\
    w_bot w' = set_rateLimiter (rateLimiter (w_bot w')) (w_bot w) /\
    forall id, id <> chatID -> stored (w_bot w') id = stored (w_bot w) id.
Proof.
  unfold handleCommand, sendOrLog, SendMessage, logPrintf, emit. cbn [fst snd].
  repeat case_bool_decide.
  - destruct (env_send env _ chatID msgStart); eexists _, _;
      (split; [reflexivity|]); cbn [w_bot w_trace]; rewrite <- ?app_assoc;
      (split; [reflexivity|]); by rewrite set_rateLimiter_same.
  - destruct (env_send env _ chatID msgHelp); eexists _, _;
      (split; [reflexivity|]); cbn [w_bot w_trace]; rewrite <- ?app_assoc;
      (split; [reflexivity|]); by rewrite set_rateLimiter_same.
  - destruct (handleTextMessage_frame chatID command w) as (w' & evs & Hrun & Ht & Hb).
    exists w', evs. split; [done|]. split; [done|]. rewrite Hb. split.
    + apply checkRateLimitAt_frame.
    + intros id Hid.
      destruct (checkRateLimitAt_ref (env_now env (w_trace w)) chatID (w_bot w))
        as (_ & Hother & _).
      cbn zeta in Hother. by rewrite Hother, bool_decide_eq_false_2.
Qed.

Lemma HandleMessage_frame (message : option Message) (w : World) :
  exists (w' : World) (evs : list event),
    HandleMessage ReplaceAll env message w = Returns w' /\
    w_trace w' = w_trace w ++ evs /\
    w_bot w' = set_rateLimiter (rateLimiter (w_bot w')) (w_bot w) /\
    forall id,
      (forall m chat, message = Some m -> Message_Chat m = Some chat ->
                      id <> Chat_ID chat) ->
      stored (w_bot w') id = stored (w_bot w) id.
Proof.
  assert (Hsame : exists (w' : World) (evs : list event),
             Returns w = Returns w' /\ w_trace w' = w_trace w ++ evs /\
             w_bot w' = set_rateLimiter (rateLimiter (w_bot w')) (w_bot w) /\
             forall id : Z, stored (w_bot w') id = stored (w_bot w) id).
  { exists w, []. by rewrite app_nil_r, set_rateLimiter_same. }
  destruct message as [message|].
  2:{ destruct Hsame as (w' & evs & ? & ? & ? & ?). exists w', evs. cbn. eauto. }
  destruct (Message_Chat message) as [chat|] eqn:Hc.
  2:{ destruct Hsame as (w' & evs & ? & ? & ? & ?). exists w', evs.
      unfold HandleMessage. rewrite Hc. eauto. }
  destruct (isUserAllowed_returns (w_bot w) message chat Hc) as ([] & Ha).
  - rewrite (HandleMessage_allowed ReplaceAll env message chat w Hc Ha).
    destruct (isCommand (Message_Text message)).
    + destruct (handleCommand_frame (Chat_ID chat) (Message_Text message) w)
        as (w' & evs & Hrun & Ht & Hb & Hother).
      exists w', evs. repeat split; try done.
      intros id Hid. apply Hother. by apply (Hid message chat).
    + case_bool_decide.
      * destruct (handleTextMessage_frame (Chat_ID chat) (Message_Text message) w)
          as (w' & evs & Hrun & Ht & Hb).
        exists w', evs. split; [done|]. split; [done|]. rewrite Hb. split.
        -- apply checkRateLimitAt_frame.
        -- intros id Hid.
           destruct (checkRateLimitAt_ref (env_now env (w_trace w)) (Chat_ID chat) (w_bot w))
             as (_ & Hother & _).
           cbn zeta in Hother. rewrite Hother, bool_decide_eq_false_2; [done|].
           by apply (Hid message chat).
      * destruct Hsame as (w' & evs & ? & ? & ? & ?). exists w', evs. eauto.
  - rewrite (HandleMessage_denied ReplaceAll env message chat w Hc Ha).
    eexists _, _. split; [reflexivity|]. cbn [logPrintf emit w_bot w_trace].
    unfold logPrintf, emit. cbn [w_bot w_trace].
    split; [reflexivity|]. by rewrite set_rateLimiter_same.
Qed.

(** X25. [HandleMessage] never panics, whatever the message (nil, without
    chat, without sender): it returns, it only adds to the trace, and of
    the bot it changes nothing but the rate limiter, and there only the
    list of the chat of the message. *)
Theorem HandleMessage_never_panics (message : option Message) (w : World) :
  exists (w' : World) (evs : list event),
    HandleMessage ReplaceAll env message w = Returns w' /\
    w_trace w' = w_trace w ++ evs /\
    w_bot w' = set_rateLimiter (rateLimiter (w_bot w')) (w_bot w) /\
    forall id,
      (forall m chat, message = Some m -> Message_Chat m = Some chat ->
                      id <> Chat_ID chat) ->
      stored (w_bot w') id = stored (w_bot w) id.
Proof. apply HandleMessage_frame. Qed.

End DispatcherMore.

(** ** More on the intake loop *)

Section IntakeMore.

Variable ReplaceAll : gostring -> gostring -> gostring -> gostring.
Variable env : Env.

(** [bot'] is [bot] but for the watermark and the rate limiter. *)
Lemma settings_kept_iff (bot bot' : TelegramBot) :
  bot' = set_rateLimiter (rateLimiter bot') (set_LastUpdate (LastUpdate bot') bot) <->
  Token bot' = Token bot /\ APIURL bot' = APIURL bot /\ Ollama bot' = Ollama bot /\
  AllowedUsers bot' = AllowedUsers bot /\ maxRequests bot' = maxRequests bot /\
  rateWindow bot' = rateWindow bot /\ maxPromptLen bot' = maxPromptLen bot.
Proof.
  split.
  - intros ->. done.
  - intros (? & ? & ? & ? & ? & ? & ?). destruct bot, bot'.
    unfold set_rateLimiter, set_LastUpdate. cbn in *. by subst.
Qed.

Lemma processUpdates_frame (updates : list Update) :
  forall w : World,
    exists (w' : World) (evs : list event),
      processUpdates ReplaceAll env updates w = Returns w' /\
      w_trace w' = w_trace w ++ evs /\
      LastUpdate (w_bot w) <= LastUpdate (w_bot w') /\
      w_bot w' = set_rateLimiter (rateLimiter (w_bot w'))
                   (set_LastUpdate (LastUpdate (w_bot w')) (w_bot w)).
Proof.
  induction updates as [|update rest IH]; intros w.
  - exists w, []. rewrite app_nil_r. repeat split; [lia|by destruct (w_bot w)].
  - cbn [processUpdates].
    set (w1 := if bool_decide (Update_UpdateID update > LastUpdate (w_bot w))
               then with_bot (set_LastUpdate (Update_UpdateID update)) w else w).
    assert (H1 : w_trace w1 = w_trace w /\
                 LastUpdate (w_bot w) <= LastUpdate (w_bot w1) /\
                 w_bot w1 = set_rateLimiter (rateLimiter (w_bot w1))
                              (set_LastUpdate (LastUpdate (w_bot w1)) (w_bot w))).
    { unfold w1. case_bool_decide; cbn; repeat split; try lia; by destruct (w_bot w). }
    destruct H1 as (Ht1 & Hl1 & Hb1).
    assert (exists w2 evs2,
               match Update_Message update with
               | Some m => HandleMessage ReplaceAll env (Some m) w1
               | None => Returns w1
               end = Returns w2 /\
               w_trace w2 = w_trace w1 ++ evs2 /\
               w_bot w2 = set_rateLimiter (rateLimiter (w_bot w2)) (w_bot w1))
      as (w2 & evs2 & -> & Ht2 & Hb2).
    { destruct (Update_Message update) as [m|].
      - destruct (HandleMessage_frame ReplaceAll env (Some m) w1)
          as (w2 & evs2 & ? & ? & ? & _). by exists w2, evs2.
      - exists w1, []. by rewrite app_nil_r, set_rateLimiter_same. }
    cbn. destruct (IH w2) as (w' & evs & Hrun & Ht & Hl & Hb).
    exists w', (evs2 ++ evs). split; [done|]. split; [|split].
    + by rewrite Ht, Ht2, Ht1, app_assoc.
    + assert (LastUpdate (w_bot w2) = LastUpdate (w_bot w1)) by (by rewrite Hb2). lia.
    + apply settings_kept_iff. apply settings_kept_iff in Hb, Hb1.
      assert (Hb2' : w_bot w2 = set_rateLimiter (rateLimiter (w_bot w2))
                       (set_LastUpdate (LastUpdate (w_bot w2)) (w_bot w1)))
        by (apply settings_kept_iff; rewrite Hb2; done).
      apply settings_kept_iff in Hb2'.
      destruct Hb as (? & ? & ? & ? & ? & ? & ?), Hb1 as (? & ? & ? & ? & ? & ? & ?),
        Hb2' as (? & ? & ? & ? & ? & ? & ?).
      repeat split; congruence.
Qed.

(** X26. The intake loop does not crash: whatever the environment
    answers and whatever the messages are, any number of iterations
    returns; the loop only adds to the trace, the watermark does not
    decrease, and of the bot nothing but the watermark and the rate
    limiter changes. *)
Theorem intakeLoop_never_crashes (n : nat) (w : World) :
  exists (st : status) (w' : World) (evs : list event),
    intakeLoop ReplaceAll env n w = Returns (st, w') /\
    w_trace w' = w_trace w ++ evs /\
    LastUpdate (w_bot w) <= LastUpdate (w_bot w') /\
    w_bot w' = set_rateLimiter (rateLimiter (w_bot w'))
                 (set_LastUpdate (LastUpdate (w_bot w')) (w_bot w)).
Proof.
  revert w. induction n as [|n IH]; intros w.
  - exists Polling, w, []. rewrite app_nil_r. repeat split; [lia|by destruct (w_bot w)].
  - cbn [intakeLoop].
    assert (exists st1 w1 evs1,
               intakeIteration ReplaceAll env w = Returns (st1, w1) /\
               w_trace w1 = w_trace w ++ evs1 /\
               LastUpdate (w_bot w) <= LastUpdate (w_bot w1) /\
               w_bot w1 = set_rateLimiter (rateLimiter (w_bot w1))
                            (set_LastUpdate (LastUpdate (w_bot w1)) (w_bot w)))
      as (st1 & w1 & evs1 & Hit & Ht1 & Hl1 & Hb1).
    { unfold intakeIteration. destruct (env_cancelled env (w_trace w)).
      - exists Stopped, w, []. rewrite app_nil_r.
        repeat split; [lia|by destruct (w_bot w)].
      - unfold GetUpdates. cbn [fst snd].
        destruct (env_fetch env (w_trace w) _) as [updates|err].
        + destruct (processUpdates_frame updates
                      (emit (EvFetch (wrap64 (LastUpdate (w_bot w) + 1)) 30) w))
            as (w1 & evs1 & Hrun & Ht & Hl & Hb).
          rewrite Hrun. cbn. exists Polling, w1, (EvFetch (wrap64 (LastUpdate (w_bot w) + 1)) 30 :: evs1).
          split; [done|]. split; [|done].
          rewrite Ht. cbn [emit w_trace]. by rewrite <- app_assoc.
        + eexists Polling, _, _. split; [reflexivity|].
          unfold Sleep, logPrintf, emit. cbn [w_bot w_trace].
          rewrite <- !app_assoc. split; [reflexivity|].
          split; [lia|by destruct (w_bot w)]. }
    rewrite Hit. cbn. destruct st1.
    + destruct (IH w1) as (st & w' & evs & Hrun & Ht & Hl & Hb).
      exists st, w', (evs1 ++ evs). split; [done|]. split; [|split].
      * by rewrite Ht, Ht1, app_assoc.
      * lia.
      * apply settings_kept_iff. apply settings_kept_iff in Hb, Hb1.
        destruct Hb as (? & ? & ? & ? & ? & ? & ?), Hb1 as (? & ? & ? & ? & ? & ? & ?).
        repeat split; congruence.
    + by exists Stopped, w1, evs1.
Qed.

(** X27. During an outage (every fetch fails, no shutdown is asked for)
    each iteration is a fetch with the same offset, a log line and a sleep
    of 5 seconds, and the bot is left as it was: [n] iterations wait [5n]
    seconds in all. *)
Theorem outage_is_paced (err : gostring) (n : nat) (w : World) :
  (forall t offset, env_fetch env t offset = inr err) ->
  (forall t, env_cancelled env t = false) ->
  intakeLoop ReplaceAll env n w
  = Returns (Polling,
      {| w_bot := w_bot w;
         w_trace := w_trace w ++
           concat (replicate n
             [EvFetch (wrap64 (LastUpdate (w_bot w) + 1)) 30;
              EvLog (str "Ошибка получения обновлений: %v") [AStr err];
              EvSleep (5 * Second)]) |}).
Proof.
  intros Hf Hc. revert w. induction n as [|n IH]; intros w.
  - cbn. rewrite app_nil_r. by destruct w.
  - cbn [intakeLoop]. unfold intakeIteration, GetUpdates. rewrite Hc. cbn [fst snd].
    rewrite Hf. cbn. rewrite IH.
    unfold Sleep, logPrintf, emit. cbn [w_bot w_trace replicate concat].
    by rewrite <- !app_assoc.
Qed.

End IntakeMore.

(** ** The first version of the bot and of the loop *)

Section FirstVersion.

Variable SplitMessage : gostring -> Z -> run (list gostring).
Variable env : Env.

(** X28. In the first version of [handleTextMessage] an error of the
    backend is sent to the chat: after the acknowledgment, the one other
    send is a text that ends with the text of the error. *)
Theorem v1_error_reaches_chat (chatID : Z) (text err : gostring) (w : World) :
  OllamaResult (env_ollama env (w_trace w ++ [EvSend chatID msgProcessing]) text)
  = inr err ->
  exists w' : World,
    handleTextMessage_v1 SplitMessage env chatID text w = Returns w' /\
    sends (w_trace w')
    = sends (w_trace w)
      ++ [(chatID, msgProcessing); (chatID, msgOllamaError_v1 err)] /\
    contains (msgOllamaError_v1 err) err.
Proof.
  intros Herr. unfold handleTextMessage_v1, SendPrompt, SendMessage, logPrintf, emit.
  cbn [fst snd w_bot w_trace]. rewrite Herr.
  eexists. split; [reflexivity|]. split.
  - destruct (env_send env _ chatID (msgOllamaError_v1 err)); cbn [w_trace];
      rewrite !sends_app; cbn [sends]; by rewrite ?app_nil_r, <- ?app_assoc.
  - exists (str "Произошла ошибка при обращении к Ollama:" ++ [newline; newline]), [].
    unfold msgOllamaError_v1. by rewrite app_nil_r, <- !app_assoc.
Qed.

(** X29. In the first version of the loop a failed fetch is followed at
    once by the next one: [n] iterations of an outage are [n] fetches with
    the same offset and [n] log lines, without any sleep. *)
Theorem v1_outage_is_a_busy_loop (err : gostring) (n : nat) (w : World) :
  (forall t offset, env_fetch env t offset = inr err) ->
  intakeLoop_v1 SplitMessage env n w
  = Returns
      {| w_bot := w_bot w;
         w_trace := w_trace w ++
           concat (replicate n
             [EvFetch (wrap64 (LastUpdate (w_bot w) + 1)) 30;
              EvLog (str "Ошибка получения обновлений: %v") [AStr err]]) |}.
Proof.
  intros Hf. revert w. induction n as [|n IH]; intros w.
  - cbn. rewrite app_nil_r. by destruct w.
  - cbn [intakeLoop_v1]. unfold intakeIteration_v1, GetUpdates. cbn [fst snd].
    rewrite Hf. cbn. rewrite IH.
    unfold logPrintf, emit. cbn [w_bot w_trace replicate concat].
    by rewrite <- !app_assoc.
Qed.

End FirstVersion.

(** ** More of the model at work *)

Section MoreExamples.

Lemma reply_is_sent_in_order_witness :
  let env := steadyEnv (generated longReply) (inl []) in
  let w := NewTelegramBot exampleToken defaultEnviron in
  (checkRateLimitAt (env_now env (w_trace w)) 7 (w_bot w)).1 = true /\
  len (str "hi") <= maxPromptLen (w_bot w) /\
  exists (w' : World) (parts : list gostring),
    handleTextMessage replaceAll env 7 (str "hi") w = Returns w' /\
    Segmenter.SplitMessage (S (length longReply)) longReply 4000 = Returns parts /\
    paced (w_trace w')
    = paced (w_trace w)
      ++ EvSend 7 msgProcessing :: EvPrompt (str "hi")
         :: chunkEvents 7 (marked parts) /\
    prompts (w_trace w') = prompts (w_trace w) ++ [str "hi"] /\
    sends (w_trace w')
    = sends (w_trace w) ++ (7, msgProcessing) :: map (pair 7) (marked parts) /\
    Forall (fun part => len part <= 4044) (marked parts) /\
    sleeps (w_trace w')
    = sleeps (w_trace w) ++ replicate (pred (length parts)) (100 * Millisecond).
Proof.
  cbn zeta.
  assert (H2 : len (str "hi")
               <= maxPromptLen (w_bot (NewTelegramBot exampleToken defaultEnviron)))
    by (vm_compute; discriminate).
  split; [reflexivity|]. split; [exact H2|].
  exact (reply_is_sent_in_order replaceAll
           (steadyEnv (generated longReply) (inl [])) 7 (str "hi") longReply
           (NewTelegramBot exampleToken defaultEnviron) eq_refl H2 eq_refl).
Defined.

(** The three chunks of a reply of 9000 bytes, as they leave the bot: the
    marker on the first, a sleep after the first and after the second,
    none after the third. *)
Example three_chunks_paced :
  match handleTextMessage replaceAll (steadyEnv (generated longReply) (inl []))
          7 (str "hi") (NewTelegramBot exampleToken defaultEnviron) with
  | Returns w' => paced (w_trace w')
  | _ => []
  end
  = [EvSend 7 msgProcessing; EvPrompt (str "hi");
     EvSend 7 (repeat "a"%char (Z.to_nat 4000) ++ continuationMarker);
     EvSleep (100 * Millisecond);
     EvSend 7 (repeat "a"%char (Z.to_nat 4000));
     EvSleep (100 * Millisecond);
     EvSend 7 (repeat "a"%char (Z.to_nat 1000))].
Proof. vm_compute. reflexivity. Qed.

Lemma empty_reply_is_sent_witness :
  let env := steadyEnv (generated []) (inl []) in
  let w := NewTelegramBot exampleToken defaultEnviron in
  (checkRateLimitAt (env_now env (w_trace w)) 7 (w_bot w)).1 = true /\
  len (str "hi") <= maxPromptLen (w_bot w) /\
  exists w' : World,
    handleTextMessage replaceAll env 7 (str "hi") w = Returns w' /\
    sends (w_trace w') = sends (w_trace w) ++ [(7, msgProcessing); (7, [])].
Proof.
  cbn zeta.
  assert (H2 : len (str "hi")
               <= maxPromptLen (w_bot (NewTelegramBot exampleToken defaultEnviron)))
    by (vm_compute; discriminate).
  split; [reflexivity|]. split; [exact H2|].
  exact (empty_reply_is_sent replaceAll (steadyEnv (generated []) (inl [])) 7 (str "hi")
           (NewTelegramBot exampleToken defaultEnviron) eq_refl H2 eq_refl).
Defined.

Lemma rate_limited_request_is_dropped_witness :
  let env := steadyEnv (generated (str "hello")) (inl []) in
  let w := with_bot (fun bot => (checkRateLimitAt 0 7 bot).2)
             (NewTelegramBot exampleToken
                {| ALLOWED_USER_IDS := None; RATE_LIMIT_MAX := Some 1;
                   RATE_LIMIT_WINDOW := None; MAX_PROMPT_LENGTH := None;
                   OLLAMA_URL := []; OLLAMA_MODEL := [] |}) in
  (checkRateLimitAt (env_now env (w_trace w)) 7 (w_bot w)).1 = false /\
  exists w' : World,
    handleTextMessage replaceAll env 7 (str "hi") w = Returns w' /\
    w_trace w' = w_trace w ++ [EvSend 7 msgRateLimited] /\
    stored (w_bot w') 7
    = filter (fun t => ~ t <= env_now env (w_trace w) - rateWindow (w_bot w))
        (stored (w_bot w) 7).
Proof.
  cbn zeta. split; [reflexivity|].
  apply rate_limited_request_is_dropped. reflexivity.
Defined.

Lemma too_long_request_counts_witness :
  let env := steadyEnv (generated (str "hello")) (inl []) in
  let w := NewTelegramBot exampleToken (environWith None (Some 3)) in
  (checkRateLimitAt (env_now env (w_trace w)) 7 (w_bot w)).1 = true /\
  len (str "hello") > maxPromptLen (w_bot w) /\
  exists w' : World,
    handleTextMessage replaceAll env 7 (str "hello") w = Returns w' /\
    w_trace w' = w_trace w ++ [EvSend 7 (msgTooLong (maxPromptLen (w_bot w)))] /\
    stored (w_bot w') 7
    = filter (fun t => ~ t <= env_now env (w_trace w) - rateWindow (w_bot w))
        (stored (w_bot w) 7) ++ [env_now env (w_trace w)].
Proof.
  cbn zeta.
  assert (H2 : len (str "hello")
               > maxPromptLen (w_bot (NewTelegramBot exampleToken (environWith None (Some 3)))))
    by reflexivity.
  split; [reflexivity|]. split; [exact H2|].
  exact (too_long_request_counts replaceAll
           (steadyEnv (generated (str "hello")) (inl [])) 7 (str "hello")
           (NewTelegramBot exampleToken (environWith None (Some 3))) eq_refl H2).
Defined.

Lemma known_commands_are_free_witness :
  let env := steadyEnv (generated (str "hello")) (inl []) in
  let w := NewTelegramBot exampleToken defaultEnviron in
  let message := textMessage (Some (userOf 7)) (Some (privateChat 7)) (str "/start") in
  isUserAllowed (w_bot w) message = Returns true /\
  exists w' : World,
    HandleMessage replaceAll env (Some message) w = Returns w' /\
    w_bot w' = w_bot w /\
    sends (w_trace w')
    = sends (w_trace w)
      ++ [(Chat_ID (privateChat 7),
           if bool_decide (Message_Text message = str "/start")
           then msgStart else msgHelp)] /\
    prompts (w_trace w') = prompts (w_trace w).
Proof.
  cbn zeta. split; [reflexivity|].
  exact (known_commands_are_free replaceAll
           (steadyEnv (generated (str "hello")) (inl []))
           (textMessage (Some (userOf 7)) (Some (privateChat 7)) (str "/start"))
           (privateChat 7) (NewTelegramBot exampleToken defaultEnviron)
           eq_refl eq_refl (or_introl eq_refl)).
Defined.

Lemma denied_sender_gets_nothing_witness :
  let env := steadyEnv (generated (str "hello")) (inl []) in
  let w := NewTelegramBot exampleToken (environWith (Some [Some 5]) None) in
  let message := textMessage (Some (userOf 6)) (Some (privateChat 6)) (str "hi") in
  AllowedUsers (w_bot w) <> ∅ /\
  AllowedUsers (w_bot w) !! User_ID (userOf 6) <> Some true /\
  exists w' : World,
    HandleMessage replaceAll env (Some message) w = Returns w' /\
    w_bot w' = w_bot w /\
    w_trace w'
    = w_trace w ++
      [EvLog (str "Отклонён запрос от неавторизованного пользователя (chat_id: %d)")
             [AInt (Chat_ID (privateChat 6))]].
Proof.
  cbn zeta.
  assert (H1 : AllowedUsers (w_bot (NewTelegramBot exampleToken
                 (environWith (Some [Some 5]) None))) <> ∅).
  { intros E. apply (f_equal (fun m : gmap Z bool => m !! 5)) in E.
    vm_compute in E. discriminate E. }
  assert (H2 : AllowedUsers (w_bot (NewTelegramBot exampleToken
                 (environWith (Some [Some 5]) None))) !! User_ID (userOf 6) <> Some true).
  { vm_compute. discriminate. }
  split; [exact H1|]. split; [exact H2|].
  exact (denied_sender_gets_nothing replaceAll
           (steadyEnv (generated (str "hello")) (inl []))
           (textMessage (Some (userOf 6)) (Some (privateChat 6)) (str "hi"))
           (userOf 6) (privateChat 6)
           (NewTelegramBot exampleToken (environWith (Some [Some 5]) None))
           H1 eq_refl H2 eq_refl).
Defined.

Lemma outage_is_paced_witness :
  let err := str "Telegram API вернул статус 502: Bad Gateway" in
  let env := steadyEnv (generated (str "hello")) (inr err) in
  let w := NewTelegramBot exampleToken defaultEnviron in
  intakeLoop replaceAll env 3 w
  = Returns (Polling,
      {| w_bot := w_bot w;
         w_trace := w_trace w ++
           concat (replicate 3
             [EvFetch (wrap64 (LastUpdate (w_bot w) + 1)) 30;
              EvLog (str "Ошибка получения обновлений: %v") [AStr err];
              EvSleep (5 * Second)]) |}).
Proof.
  cbn zeta.
  exact (outage_is_paced replaceAll
           (steadyEnv (generated (str "hello"))
              (inr (str "Telegram API вернул статус 502: Bad Gateway")))
           (str "Telegram API вернул статус 502: Bad Gateway") 3
           (NewTelegramBot exampleToken defaultEnviron)
           (fun _ _ => eq_refl) (fun _ => eq_refl)).
Defined.

Lemma v1_error_reaches_chat_witness :
  let env := steadyEnv (DoFails (str "dial tcp 127.0.0.1:11434: connect: connection refused"))
               (inl []) in
  let w := NewTelegramBot exampleToken defaultEnviron in
  let err := str "ошибка выполнения HTTP запроса: dial tcp 127.0.0.1:11434: connect: connection refused" in
  let split := fun t m => Segmenter.SplitMessage_v1 (S (length t)) t m in
  exists w' : World,
    handleTextMessage_v1 split env 7 (str "hi") w = Returns w' /\
    sends (w_trace w')
    = sends (w_trace w) ++ [(7, msgProcessing); (7, msgOllamaError_v1 err)] /\
    contains (msgOllamaError_v1 err) err.
Proof.
  cbn zeta.
  exact (v1_error_reaches_chat
           (fun t m => Segmenter.SplitMessage_v1 (S (length t)) t m)
           (steadyEnv (DoFails (str "dial tcp 127.0.0.1:11434: connect: connection refused"))
              (inl []))
           7 (str "hi")
           (str "ошибка выполнения HTTP запроса: dial tcp 127.0.0.1:11434: connect: connection refused")
           (NewTelegramBot exampleToken defaultEnviron) eq_refl).
Defined.

Lemma v1_outage_is_a_busy_loop_witness :
  let err := str "Telegram API вернул статус 502: Bad Gateway" in
  let env := steadyEnv (generated (str "hello")) (inr err) in
  let w := NewTelegramBot exampleToken defaultEnviron in
  let split := fun t m => Segmenter.SplitMessage_v1 (S (length t)) t m in
  intakeLoop_v1 split env 3 w
  = Returns
      {| w_bot := w_bot w;
         w_trace := w_trace w ++
           concat (replicate 3
             [EvFetch (wrap64 (LastUpdate (w_bot w) + 1)) 30;
              EvLog (str "Ошибка получения обновлений: %v") [AStr err]]) |}.
Proof.
  cbn zeta.
  exact (v1_outage_is_a_busy_loop
           (fun t m => Segmenter.SplitMessage_v1 (S (length t)) t m)
           (steadyEnv (generated (str "hello"))
              (inr (str "Telegram API вернул статус 502: Bad Gateway")))
           (str "Telegram API вернул статус 502: Bad Gateway") 3
           (NewTelegramBot exampleToken defaultEnviron) (fun _ _ => eq_refl)).
Defined.

End MoreExamples.
